(** * SQON orchestrator ([lib/parser.ts]): a shallow embedding

    The [SQON] class of [lib/parser.ts] is the top-level driver of the
    SQON text format: it owns the line buffer, the cursor, the global
    error list and the section-order stack, runs the directive loop
    [parseLines], delegates to three sub-parsers and offers the text
    transform [redoc] that renumbers the records of a document.

    Conventions of the embedding.
    - A JavaScript string is a [string]; the characters are 7-bit ASCII
      code units, which is what every literal of the source is made of.
      A statement that holds of the code for ASCII text only has
      [asciiText] of that text among its hypotheses.
    - A JavaScript object used as a dictionary is a [gmap string _].
    - A method that may [throw] returns a [completion].
    - The three sub-parsers ([./extends/schema], [./extends/parseValidation],
      [./extends/parseRecords]) are parameters of the orchestrator. *)

From Stdlib Require Import Ascii String DecimalString.
From stdpp Require Import gmap strings list fin_maps.

Local Open Scope string_scope.

(** ** JavaScript string primitives used by the parser *)

Module JS.

(** [String.prototype.startsWith]. *)
Fixpoint startsWith (p s : string) : bool :=
  match p, s with
  | EmptyString, _ => true
  | String a p', String b s' => if Ascii.eqb a b then startsWith p' s' else false
  | String _ _, EmptyString => false
  end.

(** White space of [String.prototype.trim] in the ASCII range:
    TAB, LF, VT, FF, CR and SPACE.  The method strips more: U+00A0, U+FEFF,
    the space separators and the line and paragraph separators, all of them
    above the ASCII range; on ASCII text these six are the whole class. *)
Definition isWhite (c : ascii) : bool :=
  let n := Ascii.nat_of_ascii c in
  (((9 <=? n) && (n <=? 13)) || (n =? 32))%nat.

Fixpoint trimStart (s : string) : string :=
  match s with
  | String c s' => if isWhite c then trimStart s' else s
  | EmptyString => EmptyString
  end.

Fixpoint trimEnd (s : string) : string :=
  match s with
  | String c s' =>
      match trimEnd s' with
      | EmptyString => if isWhite c then EmptyString else String c EmptyString
      | t => String c t
      end
  | EmptyString => EmptyString
  end.

(** [String.prototype.trim]. *)
Definition trim (s : string) : string := trimEnd (trimStart s).

Definition upperChar (c : ascii) : ascii :=
  let n := Ascii.nat_of_ascii c in
  if ((97 <=? n) && (n <=? 122))%nat then Ascii.ascii_of_nat (n - 32) else c.

(** [String.prototype.toUpperCase] on ASCII text: the letters [a] to [z]
    go to [A] to [Z] and nothing else changes.  The method also maps letters
    above the ASCII range, some of them into it (U+017F to [S]). *)
Fixpoint toUpperCase (s : string) : string :=
  match s with
  | String c s' => String (upperChar c) (toUpperCase s')
  | EmptyString => EmptyString
  end.

(** [s.split(sep)] for a one-character separator: the result is never
    empty, [''.split(sep)] is [['']]. *)
Fixpoint split (sep : ascii) (s : string) : list string :=
  match s with
  | EmptyString => [EmptyString]
  | String c s' =>
      if Ascii.eqb c sep then EmptyString :: split sep s'
      else match split sep s' with
           | hd :: tl => String c hd :: tl
           | [] => [String c EmptyString]
           end
  end.

Definition CR : ascii := Ascii.ascii_of_nat 13.
Definition LF : ascii := Ascii.ascii_of_nat 10.

(** [s.split(/\r?\n/)]: a line feed, or a carriage return with the line
    feed after it, ends a segment. *)
Fixpoint splitLines (s : string) : list string :=
  match s with
  | EmptyString => [EmptyString]
  | String c s' =>
      let continue :=
        match splitLines s' with
        | hd :: tl => String c hd :: tl
        | [] => [String c EmptyString]
        end in
      if Ascii.eqb c LF then EmptyString :: splitLines s'
      else match s' with
           | String d s'' =>
               if Ascii.eqb c CR && Ascii.eqb d LF then EmptyString :: splitLines s''
               else continue
           | EmptyString => continue
           end
  end.

(** [parts.join(sep)]. *)
Fixpoint join (sep : string) (parts : list string) : string :=
  match parts with
  | [] => EmptyString
  | [p] => p
  | p :: rest => p +:+ sep +:+ join sep rest
  end.

(** The character class [\d]. *)
Definition isDigit (c : ascii) : bool :=
  let n := Ascii.nat_of_ascii c in ((48 <=? n) && (n <=? 57))%nat.

(** The greedy match of [\d*] at the head of [s], and what follows. *)
Fixpoint spanDigits (s : string) : string * string :=
  match s with
  | String c s' =>
      if isDigit c then let '(ds, rest) := spanDigits s' in (String c ds, rest)
      else (EmptyString, s)
  | EmptyString => (EmptyString, EmptyString)
  end.

(** A non-negative integer in a template literal: [`${n}`]. *)
Definition numberToString (n : nat) : string :=
  NilZero.string_of_uint (Nat.to_uint n).

(** Truthiness of an optional string: [undefined] and [''] are falsy. *)
Definition truthy (o : option string) : bool :=
  match o with
  | Some EmptyString | None => false
  | Some _ => true
  end.

(** Every object is truthy, the empty object [{}] included. *)
Definition truthyObject {A} (o : gmap string A) : bool := true.

(** A value of type [string | undefined] in a template literal. *)
Definition showOptional (o : option string) : string :=
  match o with Some s => s | None => "undefined" end.

(** The separator of [split('\n')] and [join('\n')]. *)
Definition newline : string := String LF EmptyString.

(** A double quote inside a template literal. *)
Definition quote : string := String (Ascii.ascii_of_nat 34) EmptyString.

End JS.

(** The result of a method that may throw. *)
Inductive completion (A : Type) : Type :=
| Normal (a : A)
| Throw (message : string).
Arguments Normal {A} a.
Arguments Throw {A} message.

(** ** [redoc]: renumbering of the record markers (parser.ts 388-424) *)

Module Redoc.

(** [line.replace(/^#\d+/, `#${newDocNumber}`)]: the pattern is anchored
    at the first character of [line] itself. *)
Definition replaceMarker (newDocNumber : nat) (line : string) : string :=
  match line with
  | String c tl =>
      if Ascii.eqb c "#" then
        match JS.spanDigits tl with
        | (EmptyString, _) => line
        | (_, rest) => "#" +:+ JS.numberToString newDocNumber +:+ rest
        end
      else line
  | EmptyString => line
  end.

(** The loop variables [inRecordsSection], [newDocNumber], [updatedLines]. *)
Record loopState := {
  inRecordsSection : bool;
  newDocNumber : nat;
  updatedLines : list string
}.

(** One iteration of [for (const line of lines)]. *)
Definition body (s : loopState) (line : string) : loopState :=
  if String.eqb (JS.trim line) "@records" then
    {| inRecordsSection := true; newDocNumber := newDocNumber s;
       updatedLines := updatedLines s ++ [line] |}
  else if String.eqb (JS.trim line) "@end" && inRecordsSection s then
    {| inRecordsSection := false; newDocNumber := newDocNumber s;
       updatedLines := updatedLines s ++ [line] |}
  else if inRecordsSection s && JS.startsWith "#" (JS.trim line) then
    {| inRecordsSection := inRecordsSection s; newDocNumber := S (newDocNumber s);
       updatedLines := updatedLines s ++ [replaceMarker (newDocNumber s) line] |}
  else
    {| inRecordsSection := inRecordsSection s; newDocNumber := newDocNumber s;
       updatedLines := updatedLines s ++ [line] |}.

(** [updatedContent] as computed from [fileContent]. *)
Definition updatedContent (fileContent : string) : string :=
  let lines := JS.split JS.LF fileContent in
  let final := fold_left body lines
                 {| inRecordsSection := false; newDocNumber := 0; updatedLines := [] |} in
  JS.join JS.newline (updatedLines final).

(** The file at [this.filePath] is the only state [redoc] touches; a call
    yields the returned value ([None] is [undefined]) and the text of the
    file afterwards; reading and writing the file are taken to succeed.
    [content ?? readFile(...)] keeps an empty [content], while [if (content)]
    takes an empty [content] to the writing branch.  A call with content
    that is not empty never reaches the file; the other calls do, and on an
    instance built from [fileContent] alone, which has no [filePath], they
    fail in [readFile] or [writeFile]: for them this is the behaviour of an
    instance that has a file. *)
Definition redoc (content : option string) (file : string) : option string * string :=
  let fileContent := match content with Some c => c | None => file end in
  let updated := updatedContent fileContent in
  if JS.truthy content then (Some updated, file) else (None, updated).

End Redoc.

(** ** Data model of the orchestrator *)

(** An entry of [errors]: [{ line: number | null; message: string }]. *)
Record ParseError := { line : option nat; message : string }.

(** [fileRules: { Strict: boolean }]. *)
Record FileRules := { Strict : bool }.

(** [ParserConfig], the argument of the constructor. *)
Record ParserConfig := {
  cfg_filePath : option string;
  cfg_section : option string;
  cfg_fileContent : option string
}.

(** [this.MAX_ERRORS = 50]. *)
Definition MAX_ERRORS : nat := 50.

(** [this.allowedTypes] (parser.ts 61-66), in the order of the source. *)
Definition allowedTypes : list string :=
  [ "Number"; "String"; "Binary"; "Date"; "Boolean"; "Uint8Array"; "Binary";
    "Object"; "Any[]"; "StringArray"; "ObjectArray"; "NumberArray";
    "Number[]"; "String[]"; "Object[]"; "Null"; "undefined"; "Array";
    "[]"; "Any"; "AnyArray" ].

(** The entries of the object literal [this.validationKeywords]
    (parser.ts 67-101), in the order of the source. *)
Definition validationKeywordsEntries : list (string * list string) :=
  [ ("custom", ["Any"]);
    ("default", ["Any"]);
    ("isNull", ["Any"]);
    ("min", ["Number"; "NumberArray"; "Uint8Array"]);
    ("max", ["Number"; "NumberArray"; "Uint8Array"]);
    ("minLength", ["String"; "StringArray"; "ObjectArray"; "Array"; "Object"; "NumberArray"; "Uint8Array"]);
    ("maxLength", ["String"; "StringArray"; "ObjectArray"; "Array"; "Object"; "NumberArray"; "Uint8Array"]);
    ("maxSize", ["Binary"; "Array"; "StringArray"; "NumberArray"; "ObjectArray"; "Object"; "Uint8Array"]);
    ("required", ["Any"]);
    ("isEqualTo", ["Any"]);
    ("isDate", ["Date"]);
    ("isPositive", ["Number"; "NumberArray"; "Uint8Array"]);
    ("isNegative", ["Number"; "NumberArray"; "Uint8Array"]);
    ("isUnique", ["Any"]);
    ("hasProperties", ["Object"; "ObjectArray"]);
    ("notNull", ["Any"]);
    ("pattern", ["String"]);
    ("isEmail", ["String"; "StringArray"]);
    ("isURL", ["String"]);
    ("isAlpha", ["String"]);
    ("isNumeric", ["String"]);
    ("isAlphanumeric", ["String"]);
    ("isInteger", ["Number"]);
    ("isFloat", ["Number"]);
    ("isBoolean", ["Boolean"]);
    ("isIP", ["String"]);
    ("enum", ["Any"]);
    ("minDate", ["Date"]);
    ("maxDate", ["Date"]);
    ("matchesField", ["Any"]);
    ("trim", ["String"]);
    ("lowercase", ["String"]);
    ("uppercase", ["String"]) ].

(** [this.validationKeywords: Record<string, AllowedTypes[]>]. *)
Definition validationKeywords : gmap string (list string) :=
  list_to_map validationKeywordsEntries.

(** ** The orchestrator, over its three sub-parsers *)

Section Orchestrator.

(** The values of a schema field, of a field's rule set and a record of
    [Document] are produced by the sub-parsers and only passed along. *)
Context {FieldType Rule Document : Type}.

(** What [SQONSchema.parseSchema()] returns. *)
Record SchemaResult := {
  sr_parsedSchema : gmap string FieldType;
  sr_errors : list ParseError;
  sr_lines : list string;
  sr_position : nat
}.

(** What [SQONValidation.parseValidation()] returns. *)
Record ValidationResult := {
  vr_validations : gmap string Rule;
  vr_errors : list ParseError;
  vr_lines : list string;
  vr_position : nat
}.

(** What [SQONRecords.parseRecords(limit)] returns. *)
Record RecordsResult := {
  rr_records : list Document;
  rr_errors : list ParseError;
  rr_position : nat
}.

(** The sub-parsers, as functions of their constructor arguments:
    [new SQONSchema({ lines, position, allowedTypes }).parseSchema()],
    [new SQONValidation({ lines, position, parsedSchema, validationKeywords }).parseValidation()],
    [new SQONRecords(lines, position).parseRecords(limit)]. *)
Class SubParsers := {
  schemaParser : list string -> nat -> list string -> SchemaResult;
  validationParser :
    list string -> nat -> gmap string FieldType -> gmap string (list string) -> ValidationResult;
  recordParser : list string -> nat -> nat -> RecordsResult
}.

Context {parsers : SubParsers}.

(** The fields of a [SQON] instance that parsing reads or writes. *)
Record SQON := {
  section : option string;
  filePath : option string;
  fileContent : option string;
  lines : list string;
  position : nat;
  parsedSchema : gmap string FieldType;
  validations : gmap string Rule;
  records : list Document;
  errors : list ParseError;
  sectionOrder : list string;
  fileRules : FileRules
}.

(** [ParsedResult] without the metadata block. *)
Record ParsedResult := {
  r_fileRules : FileRules;
  r_schema : gmap string FieldType;
  r_validations : gmap string Rule;
  r_records : list Document;
  r_errors : list ParseError
}.

(** The fields as the constructor initialises them (parser.ts 52-104). *)
Definition fresh (cfg : ParserConfig) : SQON :=
  {| section := cfg_section cfg;
     filePath := cfg_filePath cfg;
     fileContent := cfg_fileContent cfg;
     lines := [];
     position := 0;
     parsedSchema := ∅;
     validations := ∅;
     records := [];
     errors := [];
     sectionOrder := [];
     fileRules := {| Strict := false |} |}.

(** The constructor (parser.ts 46-126). *)
Definition constructor (cfg : ParserConfig) : completion SQON :=
  if negb (JS.truthy (cfg_filePath cfg)) && negb (JS.truthy (cfg_fileContent cfg)) then
    Throw "Invalid configuration: At least one of 'filePath' or 'fileContent' must be provided."
  else Normal (fresh cfg).

(** Field updates. *)
Definition with_position (p : nat) (st : SQON) : SQON :=
  {| section := section st; filePath := filePath st; fileContent := fileContent st;
     lines := lines st; position := p; parsedSchema := parsedSchema st;
     validations := validations st; records := records st; errors := errors st;
     sectionOrder := sectionOrder st; fileRules := fileRules st |}.

Definition with_lines (ls : list string) (st : SQON) : SQON :=
  {| section := section st; filePath := filePath st; fileContent := fileContent st;
     lines := ls; position := position st; parsedSchema := parsedSchema st;
     validations := validations st; records := records st; errors := errors st;
     sectionOrder := sectionOrder st; fileRules := fileRules st |}.

Definition with_errors (es : list ParseError) (st : SQON) : SQON :=
  {| section := section st; filePath := filePath st; fileContent := fileContent st;
     lines := lines st; position := position st; parsedSchema := parsedSchema st;
     validations := validations st; records := records st; errors := es;
     sectionOrder := sectionOrder st; fileRules := fileRules st |}.

Definition with_sectionOrder (o : list string) (st : SQON) : SQON :=
  {| section := section st; filePath := filePath st; fileContent := fileContent st;
     lines := lines st; position := position st; parsedSchema := parsedSchema st;
     validations := validations st; records := records st; errors := errors st;
     sectionOrder := o; fileRules := fileRules st |}.

Definition with_fileRules (r : FileRules) (st : SQON) : SQON :=
  {| section := section st; filePath := filePath st; fileContent := fileContent st;
     lines := lines st; position := position st; parsedSchema := parsedSchema st;
     validations := validations st; records := records st; errors := errors st;
     sectionOrder := sectionOrder st; fileRules := r |}.

(** [this.errors.push({ line: this.position + 1, message })]. *)
Definition pushErrorHere (msg : string) (st : SQON) : SQON :=
  with_errors (errors st ++ [{| line := Some (position st + 1); message := msg |}]) st.

(** [this.errors.push({ line: null, message })]. *)
Definition pushFileError (msg : string) (st : SQON) : SQON :=
  with_errors (errors st ++ [{| line := None; message := msg |}]) st.

(** [this.position++]. *)
Definition advance (st : SQON) : SQON := with_position (position st + 1) st.

(** [this.sectionOrder.includes(s)]. *)
Definition includes (s : string) (st : SQON) : bool :=
  bool_decide (s ∈ sectionOrder st).

(** The branch of [checkSectionOrder] for [@schema] (parser.ts 297-301). *)
Definition checkSchemaOrder (st : SQON) : SQON :=
  let st1 := if includes "@schema" st
             then pushErrorHere "'@schema' is already opened but not closed." st else st in
  with_sectionOrder (sectionOrder st1 ++ ["@schema"]) st1.

(** The branch for [@validations] (parser.ts 302-309). *)
Definition checkValidationsOrder (st : SQON) : SQON :=
  let st1 := if negb (includes "@schema" st)
             then pushErrorHere "'@validations' must come after '@schema'." st else st in
  let st2 := if includes "@validations" st1
             then pushErrorHere "'@validations' is already opened but not closed." st1 else st1 in
  with_sectionOrder (sectionOrder st2 ++ ["@validations"]) st2.

(** The branch for [@records] (parser.ts 310-321). *)
Definition checkRecordsOrder (st : SQON) : SQON :=
  let st1 := if negb (includes "@schema" st)
             then pushErrorHere "'@records' must come after '@schema'." st else st in
  let st2 := if includes "@validations" st1 && negb (includes "@validations" st1)
             then pushErrorHere "'@records' must come after '@validations'." st1 else st1 in
  let st3 := if includes "@records" st2
             then pushErrorHere "'@records' is already opened but not closed." st2 else st2 in
  with_sectionOrder (sectionOrder st3 ++ ["@records"]) st3.

(** [checkSectionOrder] (parser.ts 296-322). *)
Definition checkSectionOrder (sec : string) (st : SQON) : SQON :=
  if String.eqb sec "@schema" then checkSchemaOrder st
  else if String.eqb sec "@validations" then checkValidationsOrder st
  else if String.eqb sec "@records" then checkRecordsOrder st
  else st.

(** [parseSchema] (parser.ts 330-340). *)
Definition parseSchema (st : SQON) : SQON :=
  let results := schemaParser (lines st) (position st) allowedTypes in
  {| section := section st; filePath := filePath st; fileContent := fileContent st;
     lines := sr_lines results;
     position := sr_position results;
     parsedSchema := sr_parsedSchema results;
     validations := validations st; records := records st;
     errors := errors st ++ take MAX_ERRORS (sr_errors results);
     sectionOrder := sectionOrder st; fileRules := fileRules st |}.

(** [parseValidation] (parser.ts 348-362). *)
Definition parseValidation (st : SQON) : SQON :=
  let results := validationParser (lines st) (position st) (parsedSchema st) validationKeywords in
  {| section := section st; filePath := filePath st; fileContent := fileContent st;
     lines := vr_lines results;
     position := vr_position results;
     parsedSchema := parsedSchema st;
     validations := vr_validations results; records := records st;
     errors := errors st ++ take MAX_ERRORS (vr_errors results);
     sectionOrder := sectionOrder st; fileRules := fileRules st |}.

(** [parseRecords] (parser.ts 370-378); [this.lines] is left as it is. *)
Definition parseRecords (st : SQON) : SQON :=
  let results := recordParser (lines st) (position st) 500 in
  {| section := section st; filePath := filePath st; fileContent := fileContent st;
     lines := lines st;
     position := rr_position results;
     parsedSchema := parsedSchema st;
     validations := validations st; records := rr_records results;
     errors := errors st ++ take MAX_ERRORS (rr_errors results);
     sectionOrder := sectionOrder st; fileRules := fileRules st |}.

(** [line.split('=')[1]?.trim().toUpperCase()]; [None] is [undefined]. *)
Definition strictValue (line : string) : option string :=
  match JS.split "="%char line !! 1 with
  | Some v => Some (JS.toUpperCase (JS.trim v))
  | None => None
  end.

(** The early [return] statements of [parseLines]. *)
Definition schemaOnly (st : SQON) : ParsedResult :=
  {| r_fileRules := fileRules st; r_schema := parsedSchema st;
     r_validations := ∅; r_records := []; r_errors := errors st |}.

Definition validationsOnly (st : SQON) : ParsedResult :=
  {| r_fileRules := fileRules st; r_schema := ∅;
     r_validations := validations st; r_records := []; r_errors := errors st |}.

Definition recordsOnly (st : SQON) : ParsedResult :=
  {| r_fileRules := fileRules st; r_schema := ∅;
     r_validations := ∅; r_records := records st; r_errors := errors st |}.

(** The last [return] of [parseLines]. *)
Definition fullResult (st : SQON) : ParsedResult :=
  {| r_fileRules := fileRules st; r_schema := parsedSchema st;
     r_validations := validations st; r_records := records st; r_errors := errors st |}.

(** How one iteration of the [while] loop ends. *)
Inductive iterationResult :=
| Continue (st : SQON)
| Return (r : ParsedResult)
| Raise (message : string).

(** The [*STRICT=] branch (parser.ts 209-221), [continue] included. *)
Definition strictDirective (st : SQON) (line : string) : iterationResult :=
  let v := strictValue line in
  if decide (v = Some "TRUE") then
    if JS.truthy (section st) then Raise "Strict-Mode is enabled, please turn it off."
    else Continue (advance (with_fileRules {| Strict := true |} st))
  else if decide (v = Some "FALSE") then
    Continue (advance (with_fileRules {| Strict := false |} st))
  else
    Continue (advance (pushErrorHere
      ("Invalid *STRICT value: " +:+ JS.showOptional v +:+ ". Expected TRUE or FALSE.") st)).

(** The top-level [@end] branch (parser.ts 253-263); [pop()] removes the
    last marker of the order stack. *)
Definition endDirective (st : SQON) : SQON :=
  if negb (JS.truthy (section st)) then
    match last (sectionOrder st) with
    | None => pushErrorHere "Unexpected '@end' without an open section." st
    | Some lastSection =>
        let st1 := with_sectionOrder (removelast (sectionOrder st)) st in
        if negb (String.eqb lastSection "@schema") && negb (String.eqb lastSection "@validations")
           && negb (String.eqb lastSection "@records")
        then pushErrorHere ("Unexpected '@end' for section: " +:+ lastSection +:+ ".") st1
        else st1
    end
  else st.

(** The section dispatch (parser.ts 223-267), up to the closing
    [this.position++]. *)
Definition sectionDirective (st : SQON) (line : string) : iterationResult :=
  if String.eqb line "@schema" then
    if decide (section st = Some "schema") then
      Return (schemaOnly (parseSchema (advance st)))
    else if negb (JS.truthy (section st)) then
      Continue (parseSchema (advance (checkSectionOrder "@schema" st)))
    else Continue st
  else if String.eqb line "@validations" then
    if decide (section st = Some "schema") then
      Return (validationsOnly (parseValidation (advance st)))
    else if negb (JS.truthy (section st)) then
      Continue (parseValidation (advance (checkSectionOrder "@validations" st)))
    else Continue st
  else if String.eqb line "@records" then
    if decide (section st = Some "records") then
      Return (recordsOnly (parseRecords (advance st)))
    else if negb (JS.truthy (section st)) then
      Continue (parseRecords (advance (checkSectionOrder "@records" st)))
    else Continue st
  else if String.eqb line "@end" then
    Continue (endDirective st)
  else
    if JS.truthy (section st) && negb (bool_decide (section st = Some "records"))
       && negb (bool_decide (section st = Some "schema"))
    then Raise "Invalid section parsing!"
    else if negb (JS.truthy (section st))
    then Continue (pushErrorHere ("Unknown section or command: " +:+ JS.quote +:+ line +:+ JS.quote) st)
    else Continue st.

(** The body of [while (this.position < this.lines.length)] for the
    line under the cursor. *)
Definition iteration (st : SQON) (line : string) : iterationResult :=
  if JS.startsWith "*STRICT=" line then strictDirective st line
  else match sectionDirective st line with
       | Continue st' => Continue (advance st')
       | other => other
       end.

(** The [while] loop.  A sub-parser may hand back any cursor and any line
    buffer, so the number of iterations is bounded by [fuel]; [None] is
    "fuel exhausted", [inl] the state at a regular exit of the loop,
    [inr] the value of an early [return]. *)
Fixpoint loop (fuel : nat) (st : SQON) : option (completion (SQON + ParsedResult)) :=
  match fuel with
  | 0 => None
  | S fuel' =>
      match lines st !! position st with
      | None => Some (Normal (inl st))
      | Some line =>
          match iteration st line with
          | Continue st' => loop fuel' st'
          | Return r => Some (Normal (inr r))
          | Raise m => Some (Throw m)
          end
      end
  end.

(** [n] iterations of the loop that all go on to the next one. *)
Fixpoint steps (n : nat) (st : SQON) : option SQON :=
  match n with
  | 0 => Some st
  | S n' =>
      match lines st !! position st with
      | Some line =>
          match iteration st line with
          | Continue st' => steps n' st'
          | _ => None
          end
      | None => None
      end
  end.

(** The checks after the loop (parser.ts 272-279). *)
Definition endOfInput (st : SQON) : SQON :=
  if negb (JS.truthy (section st)) then
    let st1 := if negb (JS.truthyObject (parsedSchema st))
               then pushFileError "Missing required section: '@schema'" st else st in
    if (length (records st1) =? 0)%nat
    then pushFileError "Missing required section: '@records'" st1 else st1
  else st.

(** [parseLines] (parser.ts 205-288). *)
Definition parseLines (fuel : nat) (st : SQON) : option (completion ParsedResult) :=
  match loop fuel st with
  | Some (Normal (inl st')) => Some (Normal (fullResult (endOfInput st')))
  | Some (Normal (inr r)) => Some (Normal r)
  | Some (Throw m) => Some (Throw m)
  | None => None
  end.

(** The line buffer of [parse()] for inline content (parser.ts 147-152):
    [fileContent.split(/\r?\n/).map(trim).filter(nonempty)]. *)
Definition contentLines (content : string) : list string :=
  filter (fun l => String.length l <> 0) (map JS.trim (JS.splitLines content)).

(** [parse()] up to its call of [parseLines], for an instance with inline
    content; reading the file at [filePath] is left out. *)
Definition beginParse (st : SQON) : SQON :=
  match fileContent st with
  | Some content => if JS.truthy (fileContent st) then with_lines (contentLines content) st else st
  | None => st
  end.

(** [new SQON(cfg).parse()] for inline content, without the metadata. *)
Definition parseInline (fuel : nat) (cfg : ParserConfig) : option (completion ParsedResult) :=
  match constructor cfg with
  | Throw m => Some (Throw m)
  | Normal st => parseLines fuel (beginParse st)
  end.

End Orchestrator.

Arguments SchemaResult : clear implicits.
Arguments ValidationResult : clear implicits.
Arguments RecordsResult : clear implicits.
Arguments SubParsers : clear implicits.
Arguments SQON : clear implicits.
Arguments ParsedResult : clear implicits.
Arguments iterationResult : clear implicits.

(** ** The tables of the specification (section 6) *)

Module Spec.

(** The allowed TypeTag vocabulary, token by token as the specification
    lists it. *)
Definition allowedTypeTags : list string :=
  [ "Number"; "String"; "Binary"; "Date"; "Boolean"; "byte-array"; "Object";
    "Any[]"; "StringArray"; "ObjectArray"; "NumberArray"; "Number[]";
    "String[]"; "Object[]"; "Null"; "undefined"; "Array"; "[]"; "Any";
    "AnyArray" ].

(** One row of the matrix: [k1/k2/... -> t1, t2, ...]. *)
Definition row (keywords tags : list string) : list (string * list string) :=
  map (fun k => (k, tags)) keywords.

(** The keyword -> TypeTag compatibility matrix, row by row as the
    specification lists it. *)
Definition compatibilityRows : list (string * list string) :=
  row ["custom"; "default"; "isNull"; "required"; "isEqualTo"; "isUnique";
       "notNull"; "enum"; "matchesField"] ["Any"]
  ++ row ["min"; "max"; "isPositive"; "isNegative"] ["Number"; "NumberArray"; "byte-array"]
  ++ row ["minLength"; "maxLength"]
       ["String"; "StringArray"; "ObjectArray"; "Array"; "Object"; "NumberArray"; "byte-array"]
  ++ row ["maxSize"]
       ["Binary"; "Array"; "StringArray"; "NumberArray"; "ObjectArray"; "Object"; "byte-array"]
  ++ row ["isDate"; "minDate"; "maxDate"] ["Date"]
  ++ row ["hasProperties"] ["Object"; "ObjectArray"]
  ++ row ["pattern"; "isURL"; "isAlpha"; "isNumeric"; "isAlphanumeric"; "isIP";
          "trim"; "lowercase"; "uppercase"] ["String"]
  ++ row ["isEmail"] ["String"; "StringArray"]
  ++ row ["isInteger"; "isFloat"] ["Number"]
  ++ row ["isBoolean"] ["Boolean"].

Definition compatibilityMatrix : gmap string (list string) :=
  list_to_map compatibilityRows.

(** The token of the source for a TypeTag of the specification: the
    specification's [byte-array] is the source's [Uint8Array]. *)
Definition sourceToken (tag : string) : string :=
  if String.eqb tag "byte-array" then "Uint8Array" else tag.

End Spec.

(** ** A stand-in for the sub-parsers *)

Module Scan.

(** Modelled from the spec: [SQONSchema], [SQONValidation] and
    [SQONRecords] (lib/extends) are not among the sources.  Sections 4.2
    to 4.4 say that a sub-parser scans forward from its start cursor to the
    section terminator and returns the cursor positioned just past the
    terminator; [pastTerminator rest position] is that cursor, [rest]
    being the lines from [position] on. *)
Fixpoint pastTerminator (rest : list string) (position : nat) : nat :=
  match rest with
  | [] => position
  | l :: rest' =>
      if String.eqb l "@end" then S position else pastTerminator rest' (S position)
  end.

(** Modelled from the spec: the lines of the section, from the start
    cursor up to the terminator. *)
Fixpoint body (rest : list string) : list string :=
  match rest with
  | [] => []
  | l :: rest' => if String.eqb l "@end" then [] else l :: body rest'
  end.

(** Modelled from the spec: a line [<field>: <text>] of the grammar of
    section 6, cut at its first colon.  The text is kept as it stands: type
    tokens, keywords and arguments are not interpreted. *)
Definition declaration (l : string) : string * string :=
  match JS.split ":"%char l with
  | field :: rest => (JS.trim field, JS.trim (JS.join ":" rest))
  | [] => (l, EmptyString)
  end.

(** Modelled from the spec: the field map of a section, later lines
    overwriting earlier ones. *)
Definition fieldMap (ls : list string) : gmap string string :=
  foldl (fun m l => <[ (declaration l).1 := (declaration l).2 ]> m) ∅ ls.

(** Modelled from the spec: section 4.2, without diagnostics. *)
Definition schema (lines : list string) (position : nat) (allowed : list string)
  : SchemaResult string :=
  {| sr_parsedSchema := fieldMap (body (drop position lines));
     sr_errors := [];
     sr_lines := lines;
     sr_position := pastTerminator (drop position lines) position |}.

(** Modelled from the spec: section 4.3, without diagnostics. *)
Definition validation (lines : list string) (position : nat)
    (parsedSchema : gmap string string) (keywords : gmap string (list string))
  : ValidationResult string :=
  {| vr_validations := fieldMap (body (drop position lines));
     vr_errors := [];
     vr_lines := lines;
     vr_position := pastTerminator (drop position lines) position |}.

(** Modelled from the spec: section 4.4, one document per line of the
    section; beyond [limit] documents the rest is scanned but dropped and a
    truncation diagnostic is returned. *)
Definition recordsOf (lines : list string) (position : nat) (limit : nat)
  : RecordsResult string :=
  let docs := body (drop position lines) in
  {| rr_records := take limit docs;
     rr_errors := if (limit <? length docs)%nat
                  then [{| line := None; message := "Record limit reached." |}] else [];
     rr_position := pastTerminator (drop position lines) position |}.

#[global] Instance parsers : SubParsers string string string :=
  {| schemaParser := schema; validationParser := validation; recordParser := recordsOf |}.

(** The configuration of a parse of inline content. *)
Definition inline (focus : option string) (content : list string) : ParserConfig :=
  {| cfg_filePath := None; cfg_section := focus;
     cfg_fileContent := Some (JS.join JS.newline content) |}.

(** The instance built from that configuration, at the call of
    [parseLines]. *)
Definition loaded (focus : option string) (content : list string) : SQON string string string :=
  beginParse (fresh (inline focus content)).

End Scan.

(** ** Definitions used in the statements and proofs *)

Module RedocAux.
Import Redoc.

(** The loop of [redoc] as a recursive function of the remaining lines:
    the lines pushed from a state with the given [inRecordsSection] and
    [newDocNumber] on ([fold_body] relates it to the loop). *)
Fixpoint renumber (inRecords : bool) (n : nat) (ls : list string) : list string :=
  match ls with
  | [] => []
  | l :: rest =>
      if String.eqb (JS.trim l) "@records" then l :: renumber true n rest
      else if String.eqb (JS.trim l) "@end" && inRecords then l :: renumber false n rest
      else if inRecords && JS.startsWith "#" (JS.trim l)
           then replaceMarker n l :: renumber inRecords (S n) rest
      else l :: renumber inRecords n rest
  end.

(** [c] does not occur in [s]. *)
Fixpoint freeOf (c : ascii) (s : string) : bool :=
  match s with
  | EmptyString => true
  | String a s' => negb (Ascii.eqb a c) && freeOf c s'
  end.

(** [s] matches [\d*]. *)
Fixpoint allDigits (s : string) : bool :=
  match s with
  | EmptyString => true
  | String a s' => JS.isDigit a && allDigits s'
  end.

(** A marker line that starts at the first column: [#], the old ordinal,
    the rest of the line. *)
Definition markerLine (m : string * string) : string := "#" +:+ m.1 +:+ m.2.

(** A well-formed marker: the ordinal is a non-empty run of digits and the
    rest of the line does not go on with a digit. *)
Definition wellFormedMarker (m : string * string) : Prop :=
  m.1 <> EmptyString /\ allDigits m.1 = true /\ (JS.spanDigits m.2).1 = EmptyString.

(** The markers renumbered from [n] on. *)
Fixpoint renumbered (n : nat) (ms : list (string * string)) : list string :=
  match ms with
  | [] => []
  | m :: ms' => ("#" +:+ JS.numberToString n +:+ m.2) :: renumbered (S n) ms'
  end.

End RedocAux.

(** ** Further definitions used in the statements *)

(** Every character of [s] is white space. *)
Fixpoint allWhite (s : string) : bool :=
  match s with
  | EmptyString => true
  | String c s' => JS.isWhite c && allWhite s'
  end.

(** [b] is [a], or [a] with one carriage return after it. *)
Definition uptoCR (a b : string) : Prop := b = a \/ b = a +:+ String JS.CR EmptyString.

(** The three section markers. *)
Definition sectionMarkers : list string := ["@schema"; "@validations"; "@records"].



(** The text is 7-bit ASCII.  On such a text [JS.trim] and
    [JS.toUpperCase] are the methods of the same name. *)
Fixpoint asciiText (s : string) : bool :=
  match s with
  | EmptyString => true
  | String c s' => (Ascii.nat_of_ascii c <? 128)%nat && asciiText s'
  end.

(** A line inside a record section, as [redoc] tells lines apart: a marker
    line that starts at the first column ([#], the old ordinal, the rest of
    the line), or a line that is no marker. *)
Inductive sectionLine :=
| MarkerLine (ordinal rest : string)
| OtherLine (text : string).

Definition lineText (x : sectionLine) : string :=
  match x with
  | MarkerLine ordinal rest => "#" +:+ ordinal +:+ rest
  | OtherLine text => text
  end.

(** The ordinal of a marker line is a non-empty run of digits that the rest
    of the line does not continue; a line that is no marker does not start
    with [#] once trimmed, and does not close the section. *)
Definition wellFormedLine (x : sectionLine) : Prop :=
  match x with
  | MarkerLine ordinal rest =>
      ordinal <> EmptyString /\ RedocAux.allDigits ordinal = true
      /\ (JS.spanDigits rest).1 = EmptyString
  | OtherLine text =>
      JS.startsWith "#" (JS.trim text) = false /\ JS.trim text <> "@end"
  end.

(** The lines of a section with its markers numbered from [n] on. *)
Fixpoint numbered (n : nat) (xs : list sectionLine) : list string :=
  match xs with
  | [] => []
  | MarkerLine _ rest :: xs' => ("#" +:+ JS.numberToString n +:+ rest) :: numbered (S n) xs'
  | OtherLine text :: xs' => text :: numbered n xs'
  end.

(** ** The installed version of a library ([lib/sqon.ts] 7-15) *)

Module Version.

(** A value met by [getLibraryVersion], as far as [||] and [.replace] tell
    values apart: a string, or a value that is no string (a number, a
    boolean, [null], an object, a function, [undefined]), of which only the
    truthiness matters. *)
Inductive value :=
| Str (s : string)
| NonStr (truthy : bool).

(** The two fields of the parsed [package.json] that are read.  [None] is
    a field that is absent or falsy, for which [|| {}] gives the empty
    object; a field that is present is an object, as [package.json] has it. *)
Record PackageJson := {
  dependencies : option (gmap string value);
  devDependencies : option (gmap string value)
}.

(** The property names every object inherits from [Object.prototype]; the
    value of each is a function or, for [__proto__], the prototype. *)
Definition objectPrototypeNames : list string :=
  ["constructor"; "__defineGetter__"; "__defineSetter__"; "hasOwnProperty";
   "__lookupGetter__"; "__lookupSetter__"; "isPrototypeOf"; "propertyIsEnumerable";
   "toString"; "valueOf"; "__proto__"; "toLocaleString"].

(** [deps[library]]: the own property of that name, else the inherited
    one, else [undefined]. *)
Definition get (deps : gmap string value) (library : string) : value :=
  match deps !! library with
  | Some v => v
  | None => NonStr (bool_decide (library ∈ objectPrototypeNames))
  end.

Definition truthy (v : value) : bool :=
  match v with
  | Str EmptyString => false
  | Str _ => true
  | NonStr b => b
  end.

(** [a || b]. *)
Definition or (a b : value) : value := if truthy a then a else b.

(** [a || b] on strings, the empty string being falsy. *)
Definition orElse (a b : string) : string :=
  match a with EmptyString => b | _ => a end.

(** [v.replace(/^(\^|~)/, "")]: one leading caret or tilde is removed. *)
Definition stripRange (v : string) : string :=
  match v with
  | String c rest => if Ascii.eqb c "^" || Ascii.eqb c "~" then rest else v
  | EmptyString => v
  end.

(** How a call ends: with the string it returns, or with the [TypeError]
    of calling [.replace] on a value that has no such method. *)
Inductive outcome :=
| Returned (version : string)
| ThrewTypeError.

(** [getLibraryVersion] (sqon.ts 10-15). *)
Definition getLibraryVersion (packageJson : PackageJson) (library : string) : outcome :=
  let dependencies := default ∅ (dependencies packageJson) in
  let devDependencies := default ∅ (devDependencies packageJson) in
  match or (or (get dependencies library) (get devDependencies library)) (Str EmptyString) with
  | Str version => Returned (orElse (stripRange version) "Not installed")
  | NonStr _ => ThrewTypeError
  end.

End Version.

(** Sub-parsers that hand back the line buffer they were given and a
    cursor that has not moved backwards. *)
Class WellBehaved {FieldType Rule Document : Type}
    (parsers : SubParsers FieldType Rule Document) : Prop := {
  schema_forward : forall ls p allowed,
    sr_lines (schemaParser ls p allowed) = ls /\ p <= sr_position (schemaParser ls p allowed);
  validation_forward : forall ls p sch kw,
    vr_lines (validationParser ls p sch kw) = ls /\ p <= vr_position (validationParser ls p sch kw);
  records_forward : forall ls p limit,
    p <= rr_position (recordParser ls p limit)
}.


(** * Properties *)

Local Open Scope list_scope.

(** ** Strings, and the renumbering loop *)

Module RedocFacts.
Import Redoc RedocAux.

Lemma fold_body ls : forall s,
  fold_left body ls s =
  {| inRecordsSection := inRecordsSection (fold_left body ls s);
     newDocNumber := newDocNumber (fold_left body ls s);
     updatedLines := updatedLines s ++ renumber (inRecordsSection s) (newDocNumber s) ls |}.
Proof.
  induction ls as [|l ls IH]; intros s; cbn [fold_left renumber].
  - destruct s; simpl. by rewrite app_nil_r.
  - rewrite IH. f_equal. unfold body.
    destruct (String.eqb (JS.trim l) "@records"),
             (String.eqb (JS.trim l) "@end"),
             (inRecordsSection s),
             (JS.startsWith "#" (JS.trim l));
      cbn [updatedLines inRecordsSection newDocNumber andb];
      by rewrite <- (assoc_L (++)).
Qed.

Lemma updatedContent_renumber s :
  updatedContent s = JS.join JS.newline (renumber false 0 (JS.split JS.LF s)).
Proof. unfold updatedContent. by rewrite fold_body. Qed.

Lemma split_nonempty sep s : JS.split sep s <> [].
Proof.
  destruct s as [|c s]; simpl; [done|].
  destruct (Ascii.eqb c sep); [done|]. by destruct (JS.split sep s).
Qed.

Lemma split_free sep s : Forall (fun l => freeOf sep l = true) (JS.split sep s).
Proof.
  induction s as [|c s IH]; simpl.
  - by constructor.
  - destruct (Ascii.eqb c sep) eqn:E.
    + by constructor.
    + destruct (JS.split sep s) as [|hd tl]; inversion IH; subst; constructor; simpl;
        rewrite ?E; auto.
Qed.

Lemma join_cons sep a b rest :
  JS.join sep (a :: b :: rest) = a +:+ sep +:+ JS.join sep (b :: rest).
Proof. reflexivity. Qed.

Lemma join_split s : JS.join JS.newline (JS.split JS.LF s) = s.
Proof.
  induction s as [|c s IH]; cbn [JS.split]; [done|].
  pose proof (split_nonempty JS.LF s) as Hn.
  destruct (JS.split JS.LF s) as [|hd tl] eqn:E; [done|].
  destruct (Ascii.eqb_spec c JS.LF) as [->|Hne].
  - rewrite join_cons, IH. reflexivity.
  - destruct tl as [|t tl].
    + cbn [JS.join] in *. by rewrite IH.
    + rewrite join_cons in *. by rewrite <- IH.
Qed.

Lemma split_app_free l s :
  freeOf JS.LF l = true ->
  JS.split JS.LF (l +:+ String JS.LF s) = l :: JS.split JS.LF s.
Proof.
  induction l as [|c l IH]; cbn [freeOf JS.split String.append]; intros H.
  - reflexivity.
  - apply andb_prop in H as [Hc Hl].
    destruct (Ascii.eqb c JS.LF) eqn:E; [done|].
    change (String c l +:+ String JS.LF s) with (String c (l +:+ String JS.LF s)).
    cbn [JS.split]. by rewrite E, (IH Hl).
Qed.

Lemma split_free_id l : freeOf JS.LF l = true -> JS.split JS.LF l = [l].
Proof.
  induction l as [|c l IH]; cbn [freeOf JS.split]; intros H; [done|].
  apply andb_prop in H as [Hc Hl].
  destruct (Ascii.eqb c JS.LF) eqn:E; [done|]. by rewrite (IH Hl).
Qed.

Lemma split_join ls :
  ls <> [] -> Forall (fun l => freeOf JS.LF l = true) ls ->
  JS.split JS.LF (JS.join JS.newline ls) = ls.
Proof.
  induction ls as [|l ls IH]; intros Hne Hall; [done|].
  inversion Hall as [|? ? Hl Hls]; subst.
  destruct ls as [|l2 ls].
  - cbn [JS.join]. by apply split_free_id.
  - rewrite join_cons.
    change (JS.newline +:+ ?x) with (String JS.LF x).
    rewrite split_app_free by done. f_equal. by apply IH.
Qed.

Lemma string_of_uint_digits d : allDigits (NilEmpty.string_of_uint d) = true.
Proof. induction d; simpl; auto. Qed.

Lemma numberToString_digits n : allDigits (JS.numberToString n) = true.
Proof.
  unfold JS.numberToString, NilZero.string_of_uint.
  destruct (Nat.to_uint n); [reflexivity | apply string_of_uint_digits ..].
Qed.

Lemma numberToString_nonempty n : JS.numberToString n <> EmptyString.
Proof.
  unfold JS.numberToString, NilZero.string_of_uint.
  destruct (Nat.to_uint n); discriminate.
Qed.

Lemma spanDigits_app a s :
  allDigits a = true ->
  JS.spanDigits (a +:+ s) = (a +:+ (JS.spanDigits s).1, (JS.spanDigits s).2).
Proof.
  induction a as [|c a IH]; intros H.
  - change (EmptyString +:+ s) with s. by destruct (JS.spanDigits s).
  - cbn [allDigits] in H. apply andb_prop in H as [Hc Ha].
    change (String c a +:+ s) with (String c (a +:+ s)).
    cbn [JS.spanDigits]. rewrite Hc, (IH Ha). reflexivity.
Qed.

Lemma spanDigits_rest s :
  JS.spanDigits (JS.spanDigits s).2 = (EmptyString, (JS.spanDigits s).2).
Proof.
  induction s as [|c s IH]; [done|].
  cbn [JS.spanDigits]. destruct (JS.isDigit c) eqn:E.
  - destruct (JS.spanDigits s) as [ds rest]. exact IH.
  - cbn [snd JS.spanDigits]. by rewrite E.
Qed.

Lemma freeOf_app c a b : freeOf c (a +:+ b) = freeOf c a && freeOf c b.
Proof.
  induction a as [|x a IH]; [done|].
  change (String x a +:+ b) with (String x (a +:+ b)).
  cbn [freeOf]. rewrite IH. by rewrite andb_assoc.
Qed.

Lemma spanDigits_free c s : freeOf c s = true -> freeOf c (JS.spanDigits s).2 = true.
Proof.
  induction s as [|x s IH]; [done|].
  cbn [JS.spanDigits freeOf]. intros H.
  destruct (JS.isDigit x).
  - apply andb_prop in H as [_ H]. destruct (JS.spanDigits s). by apply IH.
  - exact H.
Qed.

Lemma digits_free a : allDigits a = true -> freeOf JS.LF a = true.
Proof.
  induction a as [|x a IH]; [done|].
  cbn [allDigits freeOf]. intros H. apply andb_prop in H as [Hx Ha].
  rewrite (IH Ha), andb_true_r.
  destruct (Ascii.eqb_spec x JS.LF) as [->|]; [discriminate Hx | done].
Qed.

(** What [replace] leaves: the line itself, or the new marker followed
    by the text after the old digits. *)
Lemma replaceMarker_cases n l :
  replaceMarker n l = l \/
  exists tl, l = String "#" tl /\ (JS.spanDigits tl).1 <> EmptyString /\
    replaceMarker n l = String "#" (JS.numberToString n +:+ (JS.spanDigits tl).2).
Proof.
  destruct l as [|c tl]; [by left|].
  unfold replaceMarker. destruct (Ascii.eqb_spec c "#") as [->|]; [|by left].
  destruct (JS.spanDigits tl) as [ds rest] eqn:E.
  destruct ds as [|d ds]; [by left|].
  right. exists tl. rewrite E. by repeat split.
Qed.

Lemma replaceMarker_idem n l : replaceMarker n (replaceMarker n l) = replaceMarker n l.
Proof.
  destruct (replaceMarker_cases n l) as [E|(tl & -> & Hds & ->)]; [by rewrite !E|].
  unfold replaceMarker at 1. rewrite Ascii.eqb_refl.
  rewrite spanDigits_app by apply numberToString_digits.
  rewrite spanDigits_rest. cbn [fst snd].
  destruct (JS.numberToString n +:+ EmptyString) eqn:E.
  - destruct (JS.numberToString n) eqn:E'; [by destruct (numberToString_nonempty n)|done].
  - reflexivity.
Qed.

Lemma replaceMarker_free n l :
  freeOf JS.LF l = true -> freeOf JS.LF (replaceMarker n l) = true.
Proof.
  intros H. destruct (replaceMarker_cases n l) as [->|(tl & -> & Hds & ->)]; [done|].
  cbn [freeOf] in *. apply andb_prop in H as [_ H].
  rewrite freeOf_app, (digits_free _ (numberToString_digits n)), spanDigits_free by done.
  reflexivity.
Qed.

Lemma replaceMarker_empty n l : replaceMarker n l = EmptyString <-> l = EmptyString.
Proof.
  destruct (replaceMarker_cases n l) as [->|(tl & -> & Hds & ->)]; [done|].
  split; discriminate.
Qed.

Lemma trim_head c s : JS.isWhite c = false -> exists t, JS.trim (String c s) = String c t.
Proof.
  intros H. unfold JS.trim. cbn [JS.trimStart]. rewrite H. cbn [JS.trimEnd].
  destruct (JS.trimEnd s); rewrite ?H; eauto.
Qed.

Lemma marker_not_directive t :
  JS.startsWith "#" t = true ->
  String.eqb t "@records" = false /\ String.eqb t "@end" = false.
Proof.
  destruct t as [|c t]; [discriminate|].
  cbn [JS.startsWith]. destruct (Ascii.eqb_spec "#" c) as [<-|]; [|done].
  intros _. split; reflexivity.
Qed.

Lemma replaceMarker_marker n l :
  JS.startsWith "#" (JS.trim l) = true ->
  JS.startsWith "#" (JS.trim (replaceMarker n l)) = true.
Proof.
  intros H. destruct (replaceMarker_cases n l) as [->|(tl & -> & Hds & ->)]; [done|].
  destruct (trim_head "#" (JS.numberToString n +:+ (JS.spanDigits tl).2)) as [t ->]; done.
Qed.

Lemma renumber_idem ls : forall b n, renumber b n (renumber b n ls) = renumber b n ls.
Proof.
  induction ls as [|l ls IH]; intros b n; [done|].
  cbn [renumber].
  destruct (String.eqb (JS.trim l) "@records") eqn:E1.
  { cbn [renumber]. by rewrite E1, IH. }
  destruct (String.eqb (JS.trim l) "@end" && b) eqn:E2.
  { cbn [renumber]. destruct b; [|by rewrite andb_false_r in E2].
    by rewrite E1, E2, IH. }
  destruct (b && JS.startsWith "#" (JS.trim l)) eqn:E3.
  - apply andb_prop in E3 as [-> Hs].
    pose proof (replaceMarker_marker n l Hs) as Hs'.
    destruct (marker_not_directive _ Hs') as [H1 H2].
    cbn [renumber]. rewrite H1, H2, Hs'. cbn [andb].
    by rewrite replaceMarker_idem, IH.
  - cbn [renumber]. by rewrite E1, E2, E3, IH.
Qed.

Lemma renumber_length ls : forall b n, length (renumber b n ls) = length ls.
Proof.
  induction ls as [|l ls IH]; intros b n; [done|].
  cbn [renumber].
  destruct (String.eqb (JS.trim l) "@records"), (String.eqb (JS.trim l) "@end" && b),
    (b && JS.startsWith "#" (JS.trim l)); cbn [length]; by rewrite IH.
Qed.

Lemma renumber_free ls : forall b n,
  Forall (fun l => freeOf JS.LF l = true) ls ->
  Forall (fun l => freeOf JS.LF l = true) (renumber b n ls).
Proof.
  induction ls as [|l ls IH]; intros b n Hall; [done|].
  inversion Hall as [|? ? Hl Hls]; subst.
  cbn [renumber].
  destruct (String.eqb (JS.trim l) "@records"), (String.eqb (JS.trim l) "@end" && b),
    (b && JS.startsWith "#" (JS.trim l)); constructor; auto using replaceMarker_free.
Qed.

Lemma renumber_single_empty b n l : renumber b n [l] = [EmptyString] -> l = EmptyString.
Proof.
  cbn [renumber].
  destruct (String.eqb (JS.trim l) "@records"), (String.eqb (JS.trim l) "@end" && b),
    (b && JS.startsWith "#" (JS.trim l)); intros [= H]; auto;
    by apply replaceMarker_empty in H.
Qed.

Lemma join_empty ls :
  JS.join JS.newline ls = EmptyString -> ls = [] \/ ls = [EmptyString].
Proof.
  destruct ls as [|a [|b rest]]; [by left | cbn [JS.join]; intros ->; by right |].
  rewrite join_cons. by destruct a.
Qed.

(** The transform run by [redoc] is idempotent on every text. *)
Lemma updatedContent_idempotent s :
  updatedContent (updatedContent s) = updatedContent s.
Proof.
  rewrite !updatedContent_renumber.
  rewrite split_join.
  - by rewrite renumber_idem.
  - intros E. apply (f_equal length) in E. rewrite renumber_length in E.
    by destruct (JS.split JS.LF s) eqn:E'; [destruct (split_nonempty JS.LF s)|].
  - apply renumber_free, split_free.
Qed.

(** Only the empty text is mapped to the empty text. *)
Lemma updatedContent_empty s : updatedContent s = EmptyString <-> s = EmptyString.
Proof.
  split; [|by intros ->].
  rewrite updatedContent_renumber. intros H.
  rewrite <- (join_split s).
  pose proof (renumber_length (JS.split JS.LF s) false 0) as Hlen.
  destruct (join_empty _ H) as [E|E]; rewrite E in Hlen.
  - by destruct (JS.split JS.LF s).
  - destruct (JS.split JS.LF s) as [|l [|? ?]]; try done.
    by rewrite (renumber_single_empty _ _ _ E).
Qed.

Lemma truthy_updatedContent s :
  JS.truthy (Some (updatedContent s)) = JS.truthy (Some s).
Proof.
  destruct s as [|c s]; [done|].
  destruct (updatedContent (String c s)) eqn:E; [|reflexivity].
  apply (proj1 (updatedContent_empty _)) in E. discriminate E.
Qed.

Lemma renumber_outside pre : forall n rest,
  Forall (fun l => JS.trim l <> "@records") pre ->
  renumber false n (pre ++ rest) = pre ++ renumber false n rest.
Proof.
  induction pre as [|l pre IH]; intros n rest H; [done|].
  inversion H as [|? ? Hl Hpre]; subst.
  cbn [app renumber]. destruct (String.eqb_spec (JS.trim l) "@records") as [E|_]; [done|].
  rewrite andb_false_r. cbn [andb]. by rewrite IH.
Qed.

Lemma renumber_outside_all ls n :
  Forall (fun l => JS.trim l <> "@records") ls -> renumber false n ls = ls.
Proof.
  intros H. rewrite <- (app_nil_r ls) at 1. rewrite renumber_outside by done.
  cbn [renumber]. apply app_nil_r.
Qed.

Lemma spanDigits_empty s : (JS.spanDigits s).1 = EmptyString -> JS.spanDigits s = (EmptyString, s).
Proof.
  destruct s as [|c s]; [done|]. cbn [JS.spanDigits].
  destruct (JS.isDigit c); [|done]. by destruct (JS.spanDigits s).
Qed.

Lemma replaceMarker_markerLine n m :
  wellFormedMarker m -> replaceMarker n (markerLine m) = "#" +:+ JS.numberToString n +:+ m.2.
Proof.
  intros (Hne & Hd & Hrest). destruct m as [old rest]; cbn [fst snd] in *.
  change (replaceMarker n (markerLine (old, rest)))
    with (match JS.spanDigits (old +:+ rest) with
          | (EmptyString, _) => String "#" (old +:+ rest)
          | (_, r) => "#" +:+ JS.numberToString n +:+ r
          end).
  rewrite spanDigits_app, (spanDigits_empty rest Hrest) by done.
  cbn [fst snd]. destruct old; [done|]. reflexivity.
Qed.

Lemma renumber_markers ms : forall n rest,
  Forall wellFormedMarker ms ->
  renumber true n (map markerLine ms ++ rest)
  = renumbered n ms ++ renumber true (n + length ms) rest.
Proof.
  induction ms as [|m ms IH]; intros n rest H.
  - cbn. by rewrite Nat.add_0_r.
  - inversion H as [|? ? Hm Hms]; subst.
    cbn [map app renumber renumbered length].
    assert (Hs : JS.startsWith "#" (JS.trim (markerLine m)) = true).
    { unfold markerLine. destruct (trim_head "#" (m.1 +:+ m.2)) as [t Ht]; [done|].
      change ("#" +:+ m.1 +:+ m.2) with (String "#" (m.1 +:+ m.2)). by rewrite Ht. }
    destruct (marker_not_directive _ Hs) as [-> ->]. rewrite Hs. cbn [andb].
    rewrite replaceMarker_markerLine, IH by done.
    by rewrite Nat.add_succ_r.
Qed.

(** What [redoc] does hold to: on a document whose only record section holds
    well-formed marker lines that start at the first column, the markers are
    renumbered [#0], [#1], ... in order and every other line is unchanged. *)
Lemma redoc_renumbers_unindented pre ms post :
  Forall (fun l => JS.trim l <> "@records") pre ->
  Forall (fun l => JS.trim l <> "@records") post ->
  Forall wellFormedMarker ms ->
  Forall (fun l => freeOf JS.LF l = true) (pre ++ ["@records"] ++ map markerLine ms ++ ["@end"] ++ post) ->
  updatedContent (JS.join JS.newline (pre ++ ["@records"] ++ map markerLine ms ++ ["@end"] ++ post))
  = JS.join JS.newline (pre ++ ["@records"] ++ renumbered 0 ms ++ ["@end"] ++ post).
Proof.
  intros Hpre Hpost Hms Hfree.
  rewrite updatedContent_renumber, split_join; [|by destruct pre|done].
  rewrite renumber_outside by done.
  change (renumber false 0 (["@records"] ++ map markerLine ms ++ ["@end"] ++ post))
    with ("@records" :: renumber true 0 (map markerLine ms ++ ["@end"] ++ post)).
  rewrite renumber_markers by done.
  change (renumber true (0 + length ms) (["@end"] ++ post))
    with ("@end" :: renumber false (0 + length ms) post).
  by rewrite (renumber_outside_all post).
Qed.

End RedocFacts.

Example redoc_spec_example :
  Redoc.updatedContent
    (JS.join JS.newline ["@schema"; "#5 x"; "@end"; "@records"; "#7 a"; "#3 b"; "#9 c"; "@end"; "#4"])
  = JS.join JS.newline ["@schema"; "#5 x"; "@end"; "@records"; "#0 a"; "#1 b"; "#2 c"; "@end"; "#4"].
Proof. reflexivity. Qed.

(** ** [redoc] *)

(** C10.  Renumbering is idempotent.  For every text [s], running the
    transform of [redoc] on its own output gives that output again; and a
    call [redoc(s)] followed by a call of [redoc] on the value it returned
    returns the same value and leaves the file as the first call left it
    (for the empty text, which [redoc] does not return but writes to the
    file, the second call reads it back and writes it again). *)
Theorem redoc_idempotent (s file : string) :
  Redoc.updatedContent (Redoc.updatedContent s) = Redoc.updatedContent s /\
  Redoc.redoc (Redoc.redoc (Some s) file).1 (Redoc.redoc (Some s) file).2
  = Redoc.redoc (Some s) file.
Proof.
  split; [apply RedocFacts.updatedContent_idempotent|].
  unfold Redoc.redoc.
  destruct (JS.truthy (Some s)) eqn:Hs; cbn [fst snd].
  - rewrite RedocFacts.truthy_updatedContent, Hs.
    by rewrite RedocFacts.updatedContent_idempotent.
  - destruct s; [reflexivity | discriminate].
Qed.

(** C6, at an input where the code departs from it.  Inside [@records] a
    marker line that is indented passes the test on the trimmed line but is
    not matched by the pattern anchored at the start of the untrimmed line:
    [#7] stays as it is, the counter is incremented all the same, and the
    next marker becomes [#1], not [#0]. *)
Theorem redoc_indented_marker (file : string) :
  Redoc.redoc (Some (JS.join JS.newline ["@records"; "  #7 a"; "#3 b"; "@end"])) file
  = (Some (JS.join JS.newline ["@records"; "  #7 a"; "#1 b"; "@end"]), file).
Proof. reflexivity. Qed.

(** ** The orchestrator *)

(** The value of a [*STRICT=] line: what stands between the directive's
    [=] and the next [=], trimmed and in upper case. *)
Lemma strictValue_directive v :
  strictValue ("*STRICT=" +:+ v)
  = Some (JS.toUpperCase (JS.trim (hd EmptyString (JS.split "=" v)))).
Proof.
  unfold strictValue.
  change (JS.split "=" ("*STRICT=" +:+ v)) with ("*STRICT" :: JS.split "=" v).
  pose proof (RedocFacts.split_nonempty "=" v). by destruct (JS.split "=" v).
Qed.

Section OrchestratorFacts.

Context {FieldType Rule Document : Type} {parsers : SubParsers FieldType Rule Document}.
Implicit Types st : SQON FieldType Rule Document.

Lemma includes_with_errors s es st : includes s (with_errors es st) = includes s st.
Proof. reflexivity. Qed.

(** The test of parser.ts 314 is the conjunction of a condition and its
    negation: the branch is dead. *)
Lemma records_after_validations_dead st :
  includes "@validations" st && negb (includes "@validations" st) = false.
Proof. by destruct (includes "@validations" st). Qed.

(** One turn of the loop. *)
Lemma loop_step fuel st l :
  lines st !! position st = Some l ->
  loop (S fuel) st =
  match iteration st l with
  | Continue st' => loop fuel st'
  | Return r => Some (Normal (inr r))
  | Raise m => Some (Throw m)
  end.
Proof. intros H. cbn [loop]. by rewrite H. Qed.

Lemma loop_exit fuel st :
  lines st !! position st = None -> loop (S fuel) st = Some (Normal (inl st)).
Proof. intros H. cbn [loop]. by rewrite H. Qed.

Lemma section_checkSectionOrder sec st :
  section (checkSectionOrder sec st) = section st.
Proof.
  unfold checkSectionOrder, checkSchemaOrder, checkValidationsOrder, checkRecordsOrder.
  by repeat case_match.
Qed.

Lemma section_endDirective st : section (endDirective st) = section st.
Proof. unfold endDirective. by repeat case_match. Qed.

(** Without a focus no iteration returns or throws, and the focus stays
    unset. *)
Lemma iteration_unfocused st l :
  JS.truthy (section st) = false ->
  exists st', iteration st l = Continue st' /\ section st' = section st.
Proof.
  intros Hfocus.
  assert (section st <> Some "schema") by (intros E; by rewrite E in Hfocus).
  assert (section st <> Some "records") by (intros E; by rewrite E in Hfocus).
  unfold iteration, strictDirective, sectionDirective. rewrite Hfocus. cbn [negb andb].
  repeat case_match; simplify_eq; eexists; (split; [reflexivity|]);
    cbn [section advance parseSchema parseValidation parseRecords pushErrorHere
         with_position with_fileRules with_errors];
    rewrite ?section_checkSectionOrder, ?section_endDirective; done.
Qed.

(** C9.  Each sub-parser invocation adds at most 50 errors to the global
    list: [parseSchema], [parseValidation] and [parseRecords] append the
    first [MAX_ERRORS = 50] errors of what the sub-parser reports, in
    order, and drop the rest; the errors already in the list stay. *)
Theorem section_error_cap st :
  (errors (parseSchema st)
     = errors st ++ take 50 (sr_errors (schemaParser (lines st) (position st) allowedTypes))
   /\ length (errors (parseSchema st)) <= length (errors st) + 50)
  /\ (errors (parseValidation st)
       = errors st ++ take 50 (vr_errors (validationParser (lines st) (position st)
                                            (parsedSchema st) validationKeywords))
     /\ length (errors (parseValidation st)) <= length (errors st) + 50)
  /\ (errors (parseRecords st)
       = errors st ++ take 50 (rr_errors (recordParser (lines st) (position st) 500))
     /\ length (errors (parseRecords st)) <= length (errors st) + 50).
Proof.
  unfold parseSchema, parseValidation, parseRecords, MAX_ERRORS; cbn [errors].
  rewrite !length_app, !length_take. repeat split; lia.
Qed.

(** C8.  A [*STRICT=] line whose value (the text between the first and
    the second [=], trimmed and upper-cased) is neither [TRUE] nor [FALSE]
    makes the iteration record exactly one diagnostic, at the line of the
    cursor, and go on: [fileRules] and everything else but the cursor stay
    as they were, the cursor moves to the next line, and the loop continues
    from that state; when the line is the last one, [parseLines] returns the
    result of the end-of-input checks on it.  [Strict] is false in a fresh
    instance.  The line is ASCII text, on which the value of the model is the
    value of the code. *)
Theorem strict_invalid_value st l :
  asciiText l = true ->
  JS.startsWith "*STRICT=" l = true ->
  strictValue l <> Some "TRUE" ->
  strictValue l <> Some "FALSE" ->
  (exists st',
     iteration st l = Continue st'
     /\ (forall fuel, lines st !! position st = Some l -> loop (S fuel) st = loop fuel st')
     /\ (forall fuel, lines st !! position st = Some l -> position st + 1 = length (lines st) ->
           parseLines (S (S fuel)) st = Some (Normal (fullResult (endOfInput st'))))
     /\ errors st' = errors st ++
          [{| line := Some (position st + 1);
              message := "Invalid *STRICT value: " +:+ JS.showOptional (strictValue l)
                           +:+ ". Expected TRUE or FALSE." |}]
     /\ fileRules st' = fileRules st
     /\ position st' = position st + 1
     /\ lines st' = lines st
     /\ sectionOrder st' = sectionOrder st
     /\ parsedSchema st' = parsedSchema st
     /\ validations st' = validations st
     /\ records st' = records st)
  /\ (forall cfg, Strict (fileRules (fresh cfg : SQON FieldType Rule Document)) = false).
Proof.
  intros _ Hs Ht Hf. split; [|reflexivity].
  assert (Hit : iteration st l
                = Continue (advance (pushErrorHere
                    ("Invalid *STRICT value: " +:+ JS.showOptional (strictValue l)
                       +:+ ". Expected TRUE or FALSE.") st))).
  { unfold iteration, strictDirective. rewrite Hs.
    destruct (decide (strictValue l = Some "TRUE")); [contradiction|].
    destruct (decide (strictValue l = Some "FALSE")); [contradiction|]. reflexivity. }
  eexists. split; [exact Hit|]. split; [|split].
  - intros fuel Hl. by rewrite (loop_step _ _ _ Hl), Hit.
  - intros fuel Hl Hlast. unfold parseLines.
    rewrite (loop_step _ _ _ Hl), Hit, loop_exit; [done|].
    apply lookup_ge_None_2. cbn. lia.
  - by repeat split.
Qed.

(** C2, as the code has it.  A [*STRICT=] line is accepted wherever the
    cursor meets it at top level, whatever the order stack holds: outside
    focus mode the iteration on [*STRICT=TRUE] sets [Strict] to true and the
    one on [*STRICT=FALSE] sets it to false, the order stack, the errors and
    the line buffer stay as they were, the cursor moves to the next line and
    the loop continues from that state; when the line is the last one,
    [parseLines] returns the result of the end-of-input checks on it, with
    [Strict] as the directive set it. *)
Theorem strict_accepted_anywhere st l (b : bool) :
  JS.startsWith "*STRICT=" l = true ->
  JS.truthy (section st) = false ->
  strictValue l = Some (if b then "TRUE" else "FALSE") ->
  exists st',
    iteration st l = Continue st'
    /\ (forall fuel, lines st !! position st = Some l -> loop (S fuel) st = loop fuel st')
    /\ (forall fuel, lines st !! position st = Some l -> position st + 1 = length (lines st) ->
          parseLines (S (S fuel)) st = Some (Normal (fullResult (endOfInput st'))))
    /\ Strict (fileRules st') = b
    /\ sectionOrder st' = sectionOrder st
    /\ errors st' = errors st
    /\ position st' = position st + 1
    /\ lines st' = lines st.
Proof.
  intros Hs Hfocus Hv.
  assert (Hit : iteration st l = Continue (advance (with_fileRules {| Strict := b |} st))).
  { unfold iteration, strictDirective. rewrite Hs, Hv, Hfocus. by destruct b. }
  eexists. split; [exact Hit|]. split; [|split].
  - intros fuel Hl. by rewrite (loop_step _ _ _ Hl), Hit.
  - intros fuel Hl Hlast. unfold parseLines.
    rewrite (loop_step _ _ _ Hl), Hit, loop_exit; [done|].
    apply lookup_ge_None_2. cbn. lia.
  - by repeat split.
Qed.

(** Without a focus the loop never leaves by a [return], and the focus
    stays unset. *)
Lemma loop_unfocused fuel : forall st,
  JS.truthy (section st) = false ->
  (forall r, loop fuel st <> Some (Normal (inr r)))
  /\ (forall st', loop fuel st = Some (Normal (inl st')) -> section st' = section st).
Proof.
  induction fuel as [|fuel IH]; intros st Hfocus; [done|].
  cbn [loop]. destruct (lines st !! position st) as [l|] eqn:Hl; [|split; congruence].
  destruct (iteration_unfocused st l Hfocus) as (st1 & -> & Hsame).
  rewrite <- Hsame in Hfocus. destruct (IH st1 Hfocus) as [H1 H2].
  split; [done|]. intros st' E. by rewrite (H2 _ E).
Qed.

(** C7.  Without a focus, the checks after the loop append the file-level
    error on [@records] exactly when the record list is empty, and nothing
    else: no error on [@schema] is ever appended, the schema being an object
    and an object being truthy.  A call of [parseLines] that returns has run
    the loop to the end of the input and returns the state of the loop after
    these checks. *)
Theorem end_of_input_checks st fuel :
  JS.truthy (section st) = false ->
  errors (endOfInput st)
    = errors st ++
      (if bool_decide (records st = [])
       then [{| line := None; message := "Missing required section: '@records'" |}]
       else [])
  /\ (forall r, parseLines fuel st = Some (Normal r) ->
       exists st',
         loop fuel st = Some (Normal (inl st'))
         /\ r = fullResult (endOfInput st')
         /\ r_errors r = errors st' ++
              (if bool_decide (records st' = [])
               then [{| line := None; message := "Missing required section: '@records'" |}]
               else [])
         /\ r_records r = records st'
         /\ r_schema r = parsedSchema st').
Proof.
  intros Hfocus.
  assert (Hend : forall st, JS.truthy (section st) = false ->
            endOfInput st
            = with_errors (errors st ++
                (if bool_decide (records st = [])
                 then [{| line := None; message := "Missing required section: '@records'" |}]
                 else [])) st).
  { clear. intros st Hfocus. unfold endOfInput. rewrite Hfocus. cbn [negb JS.truthyObject].
    destruct st as [? ? ? ? ? ? ? recs ? ? ?]; destruct recs; cbn; by rewrite ?app_nil_r. }
  split; [by rewrite Hend|].
  intros r Hrun. unfold parseLines in Hrun.
  destruct (loop_unfocused fuel st Hfocus) as [Hret Hsame].
  destruct (loop fuel st) as [[[st'|r']|m]|] eqn:Hloop; try done.
  - injection Hrun as <-. exists st'. split; [done|]. split; [done|].
    rewrite Hend by (by rewrite (Hsame _ eq_refl)). by repeat split.
  - by destruct (Hret r').
Qed.

(** What a focus makes of the section directives. *)
Lemma focus_records st :
  section st = Some "records" ->
  iteration st "@records" = Return (recordsOnly (parseRecords (advance st)))
  /\ iteration st "@schema" = Continue (advance st)
  /\ iteration st "@validations" = Continue (advance st).
Proof. intros E. unfold iteration, sectionDirective. rewrite E. by repeat split. Qed.

Lemma focus_schema st :
  section st = Some "schema" ->
  iteration st "@schema" = Return (schemaOnly (parseSchema (advance st)))
  /\ iteration st "@validations" = Return (validationsOnly (parseValidation (advance st)))
  /\ iteration st "@records" = Continue (advance st).
Proof. intros E. unfold iteration, sectionDirective. rewrite E. by repeat split. Qed.

(** C1, where the code departs from it.  With the focus on [schema], a
    [@validations] line under the cursor delegates to the validation
    sub-parser and [parseLines] returns at once, with the validations of
    that sub-parser and an empty schema. *)
Theorem focus_schema_runs_validations st fuel :
  section st = Some "schema" ->
  lines st !! position st = Some "@validations" ->
  parseLines (S fuel) st = Some (Normal (validationsOnly (parseValidation (advance st))))
  /\ r_schema (validationsOnly (parseValidation (advance st))) = ∅
  /\ r_validations (validationsOnly (parseValidation (advance st)))
      = vr_validations (validationParser (lines st) (position st + 1)
                          (parsedSchema st) validationKeywords).
Proof.
  intros Hfocus Hl. split; [|by split].
  unfold parseLines. rewrite (loop_step _ _ _ Hl).
  by destruct (focus_schema st Hfocus) as (_ & -> & _).
Qed.

(** C3, as the code has it.  The constructor throws its configuration
    error exactly when neither a non-empty [filePath] nor a non-empty
    [fileContent] is given; with at least one of them, both included, it
    returns the fresh instance: empty line buffer, cursor 0, no errors. *)
Theorem constructor_needs_a_source (cfg : ParserConfig) :
  (constructor cfg
     = (Throw "Invalid configuration: At least one of 'filePath' or 'fileContent' must be provided."
        : completion (SQON FieldType Rule Document))
   <-> JS.truthy (cfg_filePath cfg) = false /\ JS.truthy (cfg_fileContent cfg) = false)
  /\ (constructor cfg = (Normal (fresh cfg) : completion (SQON FieldType Rule Document))
      <-> JS.truthy (cfg_filePath cfg) = true \/ JS.truthy (cfg_fileContent cfg) = true).
Proof.
  unfold constructor.
  destruct (JS.truthy (cfg_filePath cfg)), (JS.truthy (cfg_fileContent cfg)); cbn [negb andb];
    intuition congruence.
Qed.


(** *** The cursor convention of the schema sub-parser *)

(** [n] iterations, then the rest of the loop. *)
Lemma loop_steps n : forall m st st',
  steps n st = Some st' -> loop (n + m) st = loop m st'.
Proof.
  induction n as [|n IH]; intros m st st' H; cbn [steps] in H.
  - by injection H as ->.
  - cbn [Nat.add loop]. destruct (lines st !! position st) as [l|]; [|done].
    destruct (iteration st l); [|done..]. by apply IH.
Qed.

(** Without a focus, [@schema] under the cursor while no [@schema] marker
    is on the order stack, for a schema sub-parser that keeps the line
    buffer. *)
Lemma open_schema st sch errs p :
  JS.truthy (section st) = false ->
  includes "@schema" st = false ->
  schemaParser (lines st) (position st + 1) allowedTypes
  = {| sr_parsedSchema := sch; sr_errors := errs; sr_lines := lines st; sr_position := p |} ->
  iteration st "@schema"
  = Continue {| section := section st; filePath := filePath st; fileContent := fileContent st;
                lines := lines st; position := p + 1; parsedSchema := sch;
                validations := validations st; records := records st;
                errors := errors st ++ take 50 errs;
                sectionOrder := sectionOrder st ++ ["@schema"];
                fileRules := fileRules st |}.
Proof.
  intros Hfocus Hinc E. unfold iteration, sectionDirective. rewrite Hfocus. cbn [JS.startsWith Ascii.eqb Bool.eqb String.eqb negb].
  destruct (decide (section st = Some "schema")) as [E'|]; [by rewrite E' in Hfocus|].
  change (checkSectionOrder "@schema" st) with (checkSchemaOrder st).
  unfold checkSchemaOrder. rewrite Hinc. unfold parseSchema.
  cbn [lines position advance with_position with_sectionOrder].
  by rewrite E.
Qed.

(** The document [@schema], [@end], [*STRICT=TRUE], [*STRICT=TRUE], for
    every schema sub-parser that keeps the line buffer and stops at the terminator or
    just past it: [Strict] is set all the same. *)
Lemma strict_after_section_any_cursor (cfg : ParserConfig) :
  let ls := ["@schema"; "@end"; "*STRICT=TRUE"; "*STRICT=TRUE"] in
  JS.truthy (cfg_section cfg) = false ->
  sr_lines (schemaParser ls 1 allowedTypes) = ls ->
  sr_position (schemaParser ls 1 allowedTypes) = 1
  \/ sr_position (schemaParser ls 1 allowedTypes) = 2 ->
  exists r, parseLines 4 (with_lines ls (fresh cfg)) = Some (Normal r)
            /\ Strict (r_fileRules r) = true.
Proof.
  intros ls Hfocus Hlines Hpos.
  destruct (schemaParser ls 1 allowedTypes) as [sch errs lns p] eqn:E.
  cbn in Hlines, Hpos. subst lns.
  unfold parseLines.
  rewrite (loop_step 3 (with_lines ls (fresh cfg)) "@schema" eq_refl).
  rewrite (open_schema (with_lines ls (fresh cfg)) sch errs p Hfocus eq_refl E).
  cbn [section filePath fileContent lines validations records errors sectionOrder fileRules
       with_lines fresh app].
  destruct Hpos as [-> | ->]; destruct (cfg_section cfg) as [[|]|]; try discriminate Hfocus;
    eexists; (split; [vm_compute; reflexivity | reflexivity]).
Qed.

(** The document [@schema], [@end], [@end], [@end], [@schema], [@end], for
    every schema sub-parser that keeps the line buffer, reports nothing and stops at the
    terminator or just past it: no error on the second [@schema]. *)
Lemma reopened_section_any_cursor (cfg : ParserConfig) :
  let ls := ["@schema"; "@end"; "@end"; "@end"; "@schema"; "@end"] in
  JS.truthy (cfg_section cfg) = false ->
  (forall p, sr_lines (schemaParser ls p allowedTypes) = ls
             /\ sr_errors (schemaParser ls p allowedTypes) = []
             /\ (sr_position (schemaParser ls p allowedTypes) = p
                 \/ sr_position (schemaParser ls p allowedTypes) = p + 1)) ->
  exists r, parseLines 6 (with_lines ls (fresh cfg)) = Some (Normal r)
            /\ Forall (fun e => message e <> "'@schema' is already opened but not closed.")
                 (r_errors r).
Proof.
  intros ls Hfocus Hsub.
  destruct (Hsub 1) as (Hl1 & He1 & Hp1). destruct (Hsub 5) as (Hl5 & He5 & Hp5).
  destruct (schemaParser ls 1 allowedTypes) as [sch1 errs1 lns1 p1] eqn:E1.
  destruct (schemaParser ls 5 allowedTypes) as [sch5 errs5 lns5 p5] eqn:E5.
  cbn in Hl1, He1, Hp1, Hl5, He5, Hp5. subst lns1 lns5 errs1 errs5.
  unfold parseLines.
  rewrite (loop_step 5 (with_lines ls (fresh cfg)) "@schema" eq_refl).
  rewrite (open_schema (with_lines ls (fresh cfg)) sch1 [] p1 Hfocus eq_refl E1).
  cbn [section filePath fileContent lines validations records errors sectionOrder fileRules
       with_lines fresh app].
  assert (Hs : cfg_section cfg = None \/ cfg_section cfg = Some EmptyString)
    by (destruct (cfg_section cfg) as [[|]|]; try discriminate Hfocus; auto).
  destruct Hp1 as [-> | ->].
  - pose (st4 := {| section := cfg_section cfg; filePath := cfg_filePath cfg;
         fileContent := cfg_fileContent cfg; lines := ls; position := 4;
         parsedSchema := sch1; validations := (∅ : gmap string Rule);
         records := ([] : list Document);
         errors := [{| line := Some 4; message := "Unexpected '@end' without an open section." |}];
         sectionOrder := []; fileRules := {| Strict := false |} |}).
    rewrite (loop_steps 2 3 _ st4)
      by (subst st4; destruct Hs as [-> | ->]; vm_compute; reflexivity).
    rewrite (loop_step 2 st4 "@schema" eq_refl).
    rewrite (open_schema st4 sch5 [] p5 Hfocus eq_refl E5).
    subst st4.
    cbn [section filePath fileContent lines validations records errors sectionOrder fileRules app].
    destruct Hp5 as [-> | ->]; destruct Hs as [-> | ->];
      eexists; (split; [vm_compute; reflexivity | repeat constructor; discriminate]).
  - pose (st4 := {| section := cfg_section cfg; filePath := cfg_filePath cfg;
         fileContent := cfg_fileContent cfg; lines := ls; position := 4;
         parsedSchema := sch1; validations := (∅ : gmap string Rule);
         records := ([] : list Document);
         errors := []; sectionOrder := []; fileRules := {| Strict := false |} |}).
    rewrite (loop_steps 1 4 _ st4)
      by (subst st4; destruct Hs as [-> | ->]; vm_compute; reflexivity).
    rewrite (loop_step 3 st4 "@schema" eq_refl).
    rewrite (open_schema st4 sch5 [] p5 Hfocus eq_refl E5).
    subst st4.
    cbn [section filePath fileContent lines validations records errors sectionOrder fileRules app].
    destruct Hp5 as [-> | ->]; destruct Hs as [-> | ->];
      eexists; (split; [vm_compute; reflexivity | repeat constructor; discriminate]).
Qed.
(** *** Termination of the loop *)

Lemma lines_checkSectionOrder sec st :
  lines (checkSectionOrder sec st) = lines st
  /\ position (checkSectionOrder sec st) = position st.
Proof.
  unfold checkSectionOrder, checkSchemaOrder, checkValidationsOrder, checkRecordsOrder.
  by repeat case_match.
Qed.

Lemma lines_endDirective st :
  lines (endDirective st) = lines st /\ position (endDirective st) = position st.
Proof. unfold endDirective. by repeat case_match. Qed.

(** With well-behaved sub-parsers an iteration that goes on has moved the
    cursor forward over the same line buffer. *)
Lemma iteration_progress `{!WellBehaved parsers} st l :
  match iteration st l with
  | Continue st' => lines st' = lines st /\ position st < position st'
  | _ => True
  end.
Proof.
  unfold iteration, strictDirective, sectionDirective.
  repeat case_match; simplify_eq; try done;
    cbn [lines position advance parseSchema parseValidation parseRecords pushErrorHere
         with_position with_fileRules with_errors];
    repeat match goal with
      | |- context [schemaParser ?a ?b ?c] =>
          destruct (schema_forward a b c) as [-> ?]; generalize dependent (schemaParser a b c); intros
      | |- context [validationParser ?a ?b ?c ?d] =>
          destruct (validation_forward a b c d) as [-> ?];
          generalize dependent (validationParser a b c d); intros
      | |- context [recordParser ?a ?b ?c] =>
          pose proof (records_forward a b c); generalize dependent (recordParser a b c); intros
      end;
    repeat match goal with
      | H : context [checkSectionOrder ?s ?x] |- _ =>
          destruct (lines_checkSectionOrder s x) as [? ?]; generalize dependent (checkSectionOrder s x); intros
      | |- context [checkSectionOrder ?s ?x] =>
          destruct (lines_checkSectionOrder s x) as [? ?]; generalize dependent (checkSectionOrder s x); intros
      | |- context [endDirective ?x] =>
          destruct (lines_endDirective x) as [? ?]; generalize dependent (endDirective x); intros
      end;
    split; try congruence; lia.
Qed.

Lemma loop_terminates `{!WellBehaved parsers} fuel : forall st,
  length (lines st) - position st < fuel ->
  exists out, loop fuel st = Some out.
Proof.
  induction fuel as [|fuel IH]; intros st Hfuel; [lia|].
  cbn [loop]. destruct (lines st !! position st) as [l|] eqn:Hl; [|eauto].
  apply lookup_lt_Some in Hl.
  pose proof (iteration_progress st l) as Hp.
  destruct (iteration st l) as [st'| |]; [|eauto..].
  destruct Hp as [Hlines Hpos]. apply IH. rewrite Hlines. lia.
Qed.

(** With well-behaved sub-parsers [parseLines] comes to an end, by a
    [return] or a [throw], within one iteration per remaining line. *)
Lemma parseLines_terminates `{!WellBehaved parsers} st :
  exists out, parseLines (S (length (lines st) - position st)) st = Some out.
Proof.
  unfold parseLines.
  destruct (loop_terminates (S (length (lines st) - position st)) st) as [out ->]; [lia|].
  destruct out as [[?|?]|?]; eauto.
Qed.

End OrchestratorFacts.

(** ** The stand-in sub-parsers are well behaved *)

Lemma pastTerminator_forward rest : forall p, p <= Scan.pastTerminator rest p.
Proof.
  induction rest as [|l rest IH]; intros p; cbn [Scan.pastTerminator]; [lia|].
  destruct (String.eqb l "@end"); [lia|]. specialize (IH (S p)). lia.
Qed.

#[global] Instance scan_well_behaved : WellBehaved Scan.parsers.
Proof.
  split; intros; cbn; try split; try done; apply pastTerminator_forward.
Qed.

(** ** The constants *)

(** C5, as stated, fails: the specification's token [byte-array] is not in
    [allowedTypes], and the matrix of the source differs from the
    specification's at [min]. *)
Lemma vocabulary_counterexample :
  ~ (forall t, t ∈ allowedTypes <-> t ∈ Spec.allowedTypeTags)
  /\ validationKeywords <> Spec.compatibilityMatrix.
Proof.
  split.
  - intros H. destruct (H "byte-array") as [_ H']. revert H'. compute_done.
  - intros H. apply (f_equal (fun m => m !! "min")) in H. vm_compute in H. discriminate H.
Qed.

(** C5, as the code has it.  With [Uint8Array] for the specification's
    [byte-array], the tokens of [allowedTypes] are exactly the 20 tokens of
    the specification (the array has 21 entries, [Binary] twice), and
    [validationKeywords] is exactly the specification's matrix. *)
Theorem vocabulary_and_matrix :
  (forall t, t ∈ allowedTypes <-> t ∈ map Spec.sourceToken Spec.allowedTypeTags)
  /\ NoDup (map Spec.sourceToken Spec.allowedTypeTags)
  /\ length Spec.allowedTypeTags = 20
  /\ length allowedTypes = 21
  /\ validationKeywords = (map Spec.sourceToken) <$> Spec.compatibilityMatrix.
Proof.
  split; [|split; [|split; [|split]]].
  - assert (H1 : Forall (fun t => t ∈ map Spec.sourceToken Spec.allowedTypeTags) allowedTypes)
      by compute_done.
    assert (H2 : Forall (fun t => t ∈ allowedTypes) (map Spec.sourceToken Spec.allowedTypeTags))
      by compute_done.
    rewrite Forall_forall in H1, H2. intros t. split; auto.
  - compute_done.
  - reflexivity.
  - reflexivity.
  - apply (bool_decide_eq_true_1
             (validationKeywords = (map Spec.sourceToken) <$> Spec.compatibilityMatrix)).
    vm_compute. reflexivity.
Qed.

(** ** Runs on concrete documents *)

(** C2, as stated, fails: both [*STRICT=] lines of this document come after
    the [@schema] section, and the parse returns with [Strict] set. *)
Lemma strict_after_section_counterexample :
  exists r,
    parseInline 4 (Scan.inline None ["@schema"; "@end"; "*STRICT=TRUE"; "*STRICT=TRUE"])
    = Some (Normal r)
    /\ Strict (r_fileRules r) = true.
Proof. eexists. split; vm_compute; reflexivity. Qed.

(** At a state with [@schema] on the order stack and the cursor on a
    [*STRICT=TRUE] line. *)
Lemma strict_accepted_anywhere_witness :
  exists st',
    iteration (with_sectionOrder ["@schema"]
                 (with_position 2 (Scan.loaded None ["@schema"; "@end"; "*STRICT=TRUE"])))
      "*STRICT=TRUE"
    = Continue st'
    /\ (forall fuel,
          lines (with_sectionOrder ["@schema"]
                   (with_position 2 (Scan.loaded None ["@schema"; "@end"; "*STRICT=TRUE"])))
            !! position (with_sectionOrder ["@schema"]
                          (with_position 2 (Scan.loaded None ["@schema"; "@end"; "*STRICT=TRUE"])))
          = Some "*STRICT=TRUE" ->
          loop (S fuel) (with_sectionOrder ["@schema"]
                           (with_position 2 (Scan.loaded None ["@schema"; "@end"; "*STRICT=TRUE"])))
          = loop fuel st')
    /\ (forall fuel,
          lines (with_sectionOrder ["@schema"]
                   (with_position 2 (Scan.loaded None ["@schema"; "@end"; "*STRICT=TRUE"])))
            !! position (with_sectionOrder ["@schema"]
                          (with_position 2 (Scan.loaded None ["@schema"; "@end"; "*STRICT=TRUE"])))
          = Some "*STRICT=TRUE" ->
          2 + 1 = 3 ->
          parseLines (S (S fuel))
            (with_sectionOrder ["@schema"]
               (with_position 2 (Scan.loaded None ["@schema"; "@end"; "*STRICT=TRUE"])))
          = Some (Normal (fullResult (endOfInput st'))))
    /\ Strict (fileRules st') = true
    /\ sectionOrder st' = ["@schema"]
    /\ errors st' = []
    /\ position st' = 3
    /\ lines st' = ["@schema"; "@end"; "*STRICT=TRUE"].
Proof.
  apply (strict_accepted_anywhere
           (with_sectionOrder ["@schema"]
              (with_position 2 (Scan.loaded None ["@schema"; "@end"; "*STRICT=TRUE"])))
           "*STRICT=TRUE" true); vm_compute; reflexivity.
Defined.

(** C3, as stated, fails: with a file path and inline content both given,
    construction succeeds. *)
Lemma both_sources_counterexample :
  constructor {| cfg_filePath := Some "data.sqon"; cfg_section := None;
                 cfg_fileContent := Some "@schema" |}
  = Normal (fresh (FieldType := string) (Rule := string) (Document := string)
              {| cfg_filePath := Some "data.sqon"; cfg_section := None;
                 cfg_fileContent := Some "@schema" |}).
Proof. reflexivity. Qed.



(** A document with a schema and no records: the checks at the start
    state, and the whole parse. *)
Lemma end_of_input_checks_witness :
  errors (endOfInput (Scan.loaded None ["@schema"; "a: Number"; "@end"]))
  = [{| line := None; message := "Missing required section: '@records'" |}]
  /\ exists st',
      loop 3 (Scan.loaded None ["@schema"; "a: Number"; "@end"]) = Some (Normal (inl st'))
      /\ parseLines 3 (Scan.loaded None ["@schema"; "a: Number"; "@end"])
         = Some (Normal (fullResult (endOfInput st')))
      /\ r_errors (fullResult (endOfInput st'))
         = errors st' ++ [{| line := None; message := "Missing required section: '@records'" |}]
      /\ r_schema (fullResult (endOfInput st')) = {[ "a" := "Number" ]}.
Proof.
  assert (Hfocus : JS.truthy (section (Scan.loaded None ["@schema"; "a: Number"; "@end"])) = false)
    by (vm_compute; reflexivity).
  destruct (end_of_input_checks (Scan.loaded None ["@schema"; "a: Number"; "@end"]) 3 Hfocus)
    as [Hend Hrun].
  split; [rewrite Hend; vm_compute; reflexivity|].
  destruct (Hrun _ ltac:(vm_compute; reflexivity)) as (st' & Hloop & Hr & Herr & Hrec & Hsch).
  exists st'. split; [exact Hloop|].
  assert (Hst : Some (Normal (inl st'))
                = loop 3 (Scan.loaded None ["@schema"; "a: Number"; "@end"])) by done.
  vm_compute in Hst. injection Hst as ->.
  repeat split; vm_compute; reflexivity.
Defined.

(** [*STRICT=MAYBE] as the only line. *)
Lemma strict_invalid_value_witness :
  exists st',
    iteration (Scan.loaded None ["*STRICT=MAYBE"]) "*STRICT=MAYBE" = Continue st'
    /\ (forall fuel,
          lines (Scan.loaded None ["*STRICT=MAYBE"]) !! position (Scan.loaded None ["*STRICT=MAYBE"])
          = Some "*STRICT=MAYBE" ->
          loop (S fuel) (Scan.loaded None ["*STRICT=MAYBE"]) = loop fuel st')
    /\ (forall fuel,
          lines (Scan.loaded None ["*STRICT=MAYBE"]) !! position (Scan.loaded None ["*STRICT=MAYBE"])
          = Some "*STRICT=MAYBE" ->
          0 + 1 = 1 ->
          parseLines (S (S fuel)) (Scan.loaded None ["*STRICT=MAYBE"])
          = Some (Normal (fullResult (endOfInput st'))))
    /\ errors st' = [{| line := Some 1;
                        message := "Invalid *STRICT value: MAYBE. Expected TRUE or FALSE." |}]
    /\ fileRules st' = {| Strict := false |}
    /\ position st' = 1
    /\ lines st' = ["*STRICT=MAYBE"]
    /\ sectionOrder st' = []
    /\ parsedSchema st' = ∅
    /\ validations st' = ∅
    /\ records st' = [].
Proof.
  apply (strict_invalid_value (Scan.loaded None ["*STRICT=MAYBE"]) "*STRICT=MAYBE");
    [vm_compute; reflexivity | vm_compute; reflexivity
    | intros H; vm_compute in H; discriminate H | intros H; vm_compute in H; discriminate H].
Defined.

(** The focus on [schema] and a document that starts with [@validations]. *)
Lemma focus_schema_runs_validations_witness :
  parseLines 1 (Scan.loaded (Some "schema") ["@validations"; "age: min(18)"; "@end"; "@schema"; "age: Number"; "@end"])
  = Some (Normal {| r_fileRules := {| Strict := false |};
                    r_schema := ∅;
                    r_validations := {[ "age" := "min(18)" ]};
                    r_records := [];
                    r_errors := [] |}).
Proof.
  destruct (focus_schema_runs_validations
              (Scan.loaded (Some "schema") ["@validations"; "age: min(18)"; "@end"; "@schema"; "age: Number"; "@end"])
              0 ltac:(vm_compute; reflexivity) ltac:(vm_compute; reflexivity)) as [-> _].
  vm_compute. reflexivity.
Defined.

(** * Further properties *)

(** ** Loading the lines *)

Module TrimFacts.

Lemma trimEnd_head c s :
  JS.isWhite c = false -> JS.trimEnd (String c s) = String c (JS.trimEnd s).
Proof. intros H. cbn [JS.trimEnd]. destruct (JS.trimEnd s); by rewrite ?H. Qed.

Lemma trimEnd_idem s : JS.trimEnd (JS.trimEnd s) = JS.trimEnd s.
Proof.
  induction s as [|c s IH]; [done|]. cbn [JS.trimEnd].
  destruct (JS.trimEnd s) as [|d t] eqn:E.
  - destruct (JS.isWhite c) eqn:W; [done|]. cbn [JS.trimEnd]. by rewrite W.
  - cbn [JS.trimEnd] in *. by rewrite IH.
Qed.

Lemma trimStart_cases s :
  JS.trimStart s = EmptyString
  \/ exists c t, JS.trimStart s = String c t /\ JS.isWhite c = false.
Proof.
  induction s as [|c s IH]; [by left|]. cbn [JS.trimStart].
  destruct (JS.isWhite c) eqn:W; [done|]. right. eauto.
Qed.

(** [trim] is idempotent. *)
Lemma trim_idem s : JS.trim (JS.trim s) = JS.trim s.
Proof.
  unfold JS.trim. destruct (trimStart_cases s) as [->|(c & t & -> & W)]; [done|].
  rewrite (trimEnd_head c t W). cbn [JS.trimStart]. rewrite W.
  by rewrite (trimEnd_head c _ W), trimEnd_idem.
Qed.

Lemma trimEnd_CR x : JS.trimEnd (x +:+ String JS.CR EmptyString) = JS.trimEnd x.
Proof.
  induction x as [|c x IH]; [done|].
  change (String c x +:+ String JS.CR EmptyString) with (String c (x +:+ String JS.CR EmptyString)).
  cbn [JS.trimEnd]. by rewrite IH.
Qed.

Lemma trimStart_CR a :
  JS.trimStart (a +:+ String JS.CR EmptyString)
  = match JS.trimStart a with
    | EmptyString => EmptyString
    | t => t +:+ String JS.CR EmptyString
    end.
Proof.
  induction a as [|c a IH]; [done|].
  change (String c a +:+ String JS.CR EmptyString) with (String c (a +:+ String JS.CR EmptyString)).
  cbn [JS.trimStart]. by destruct (JS.isWhite c).
Qed.

Lemma trim_uptoCR a b : uptoCR a b -> JS.trim a = JS.trim b.
Proof.
  intros [->| ->]; [done|]. unfold JS.trim. rewrite trimStart_CR.
  destruct (JS.trimStart a); [done|]. by rewrite trimEnd_CR.
Qed.

Lemma uptoCR_cons c a b : uptoCR a b -> uptoCR (String c a) (String c b).
Proof. intros [->| ->]; [by left|by right]. Qed.

Lemma splitLines_cons2 c d s :
  JS.splitLines (String c (String d s))
  = if Ascii.eqb c JS.LF then EmptyString :: JS.splitLines (String d s)
    else if Ascii.eqb c JS.CR && Ascii.eqb d JS.LF then EmptyString :: JS.splitLines s
    else match JS.splitLines (String d s) with
         | hd :: tl => String c hd :: tl
         | [] => [String c EmptyString]
         end.
Proof. reflexivity. Qed.

Lemma split_cons sep c s :
  JS.split sep (String c s)
  = if Ascii.eqb c sep then EmptyString :: JS.split sep s
    else match JS.split sep s with
         | hd :: tl => String c hd :: tl
         | [] => [String c EmptyString]
         end.
Proof. reflexivity. Qed.

Lemma splitLines_split_aux s :
  Forall2 uptoCR (JS.splitLines s) (JS.split JS.LF s)
  /\ forall c, Forall2 uptoCR (JS.splitLines (String c s)) (JS.split JS.LF (String c s)).
Proof.
  induction s as [|d s [IH1 IH2]].
  - split; [repeat constructor; by left|]. intros c. cbn.
    destruct (Ascii.eqb c JS.LF); repeat constructor; by left.
  - split; [apply IH2|]. intros c.
    rewrite splitLines_cons2, (split_cons JS.LF c).
    destruct (Ascii.eqb c JS.LF) eqn:E1.
    { constructor; [by left|apply IH2]. }
    destruct (Ascii.eqb c JS.CR && Ascii.eqb d JS.LF) eqn:E2.
    { apply andb_prop in E2 as [Ec Ed]. apply Ascii.eqb_eq in Ec, Ed. subst c d.
      change (JS.split JS.LF (String JS.LF s)) with (EmptyString :: JS.split JS.LF s).
      constructor; [by right | apply IH1]. }
    specialize (IH2 d).
    destruct (JS.splitLines (String d s)) as [|h1 t1], (JS.split JS.LF (String d s)) as [|h2 t2];
      inversion IH2; subst; constructor; auto using uptoCR_cons.
    by left.
Qed.

(** The segments of [split(/\r?\n/)] and of [split('\n')] agree once
    trimmed. *)
Lemma splitLines_trim s :
  map JS.trim (JS.splitLines s) = map JS.trim (JS.split JS.LF s).
Proof.
  destruct (splitLines_split_aux s) as [H _].
  induction H as [|a b la lb Hab _ IH]; [done|].
  cbn [map]. by rewrite (trim_uptoCR a b Hab), IH.
Qed.

Lemma trim_white s : allWhite s = true -> JS.trim s = EmptyString.
Proof.
  unfold JS.trim. induction s as [|c s IH]; [done|]. cbn [allWhite JS.trimStart].
  intros H. apply andb_prop in H as [-> H]. auto.
Qed.

Lemma split_white s : allWhite s = true -> Forall (fun l => allWhite l = true) (JS.split JS.LF s).
Proof.
  induction s as [|c s IH]; [by repeat constructor|]. cbn [allWhite JS.split].
  intros H. apply andb_prop in H as [Hc H]. specialize (IH H).
  destruct (Ascii.eqb c JS.LF); [by constructor|].
  destruct (JS.split JS.LF s); inversion IH; subst; constructor; cbn [allWhite]; auto.
  - by rewrite Hc.
  - by rewrite Hc.
Qed.

End TrimFacts.

Section LoadingFacts.

Context {FieldType Rule Document : Type} {parsers : SubParsers FieldType Rule Document}.

(** X1.  The line buffer that [parse()] builds from inline content holds
    only lines that are not empty and already trimmed: trimming one of them
    again changes nothing. *)
Theorem contentLines_trimmed (content : string) :
  Forall (fun l => l <> EmptyString /\ JS.trim l = l) (contentLines content).
Proof.
  unfold contentLines. apply Forall_forall. intros l Hl.
  apply list_elem_of_filter in Hl as [Hne Hl].
  apply list_elem_of_fmap in Hl as (x & -> & _).
  split; [|apply TrimFacts.trim_idem]. intros E. by rewrite E in Hne.
Qed.

(** X2.  Line endings do not matter to the line buffer: cutting the
    content at [\r\n] or [\n] (as [parse()] does) gives the same lines as
    cutting it at [\n] alone, the carriage returns being trimmed away. *)
Theorem contentLines_crlf (content : string) :
  contentLines content
  = filter (fun l => String.length l <> 0) (map JS.trim (JS.split JS.LF content)).
Proof. unfold contentLines. by rewrite TrimFacts.splitLines_trim. Qed.

Lemma contentLines_white content : allWhite content = true -> contentLines content = [].
Proof.
  intros H. unfold contentLines. rewrite TrimFacts.splitLines_trim.
  pose proof (TrimFacts.split_white content H) as Hall.
  induction Hall as [|l ls Hl _ IH]; [done|].
  cbn [map]. rewrite (TrimFacts.trim_white l Hl).
  rewrite filter_cons_False; [exact IH | cbn; congruence].
Qed.

(** X3.  Inline content that is not empty but holds white space only is
    accepted by the constructor and parses, without a focus, to an empty
    result whose single error is the file-level one on the missing records. *)
Theorem blank_content_parses_empty (cfg : ParserConfig) (content : string) (fuel : nat) :
  cfg_fileContent cfg = Some content ->
  content <> EmptyString ->
  allWhite content = true ->
  JS.truthy (cfg_section cfg) = false ->
  parseInline (S fuel) cfg
  = Some (Normal {| r_fileRules := {| Strict := false |}; r_schema := ∅; r_validations := ∅;
                    r_records := [];
                    r_errors := [{| line := None;
                                    message := "Missing required section: '@records'" |}] |}).
Proof.
  intros Hc Hne Hw Hfocus. unfold parseInline, constructor. rewrite Hc.
  assert (Ht : JS.truthy (Some content) = true) by (by destruct content).
  rewrite Ht, andb_false_r. unfold beginParse. cbn [fileContent fresh]. rewrite Hc, Ht.
  rewrite (contentLines_white content Hw).
  unfold parseLines. cbn [loop lines position with_lines fresh lookup].
  cbn. unfold endOfInput. cbn. by rewrite Hfocus.
Qed.
End LoadingFacts.

(** ** More on the orchestrator *)

Section MoreOrchestratorFacts.
Context {FieldType Rule Document : Type} {parsers : SubParsers FieldType Rule Document}.
Implicit Types st : SQON FieldType Rule Document.

(** What [checkSectionOrder] and [endDirective] leave alone. *)
Lemma checkSectionOrder_frame sec st :
  let st' := checkSectionOrder sec st in
  lines st' = lines st /\ position st' = position st /\ section st' = section st
  /\ fileRules st' = fileRules st /\ parsedSchema st' = parsedSchema st
  /\ validations st' = validations st /\ records st' = records st
  /\ errors st `prefix_of` errors st'
  /\ length (errors st') <= length (errors st) + 2.
Proof.
  unfold checkSectionOrder, checkSchemaOrder, checkValidationsOrder, checkRecordsOrder.
  repeat case_match;
    try (match goal with H : ?x && negb ?x = true |- _ => destruct x; discriminate H end);
    cbn; repeat split; try done; try lia;
    try (rewrite ?length_app; cbn; lia);
    try (rewrite <- ?(assoc_L (++)); by apply prefix_app_r).
Qed.

Lemma endDirective_frame st :
  let st' := endDirective st in
  lines st' = lines st /\ position st' = position st /\ section st' = section st
  /\ fileRules st' = fileRules st /\ parsedSchema st' = parsedSchema st
  /\ validations st' = validations st /\ records st' = records st
  /\ errors st `prefix_of` errors st'
  /\ length (errors st') <= length (errors st) + 1.
Proof.
  unfold endDirective.
  repeat case_match; cbn; repeat split; try done; try lia;
    try (rewrite ?length_app; cbn; lia); by apply prefix_app_r.
Qed.

(** The errors of an iteration: those before stay, at most 52 are added. *)
Lemma iteration_errors st l :
  match iteration st l with
  | Continue st' =>
      errors st `prefix_of` errors st' /\ length (errors st') <= length (errors st) + 52
  | Return r =>
      errors st `prefix_of` r_errors r /\ length (r_errors r) <= length (errors st) + 50
  | Raise _ => True
  end.
Proof.
  unfold iteration, strictDirective, sectionDirective.
  repeat case_match; simplify_eq; try done;
    cbn [errors r_errors advance parseSchema parseValidation parseRecords pushErrorHere
         schemaOnly validationsOnly recordsOnly with_position with_fileRules with_errors];
    repeat match goal with
      | |- context [checkSectionOrder ?s ?x] =>
          let H := fresh in
          pose proof (checkSectionOrder_frame s x) as H; cbn zeta in H;
          destruct H as (_ & _ & _ & _ & _ & _ & _ & ? & ?);
          generalize dependent (checkSectionOrder s x); intros
      | |- context [endDirective ?x] =>
          let H := fresh in
          pose proof (endDirective_frame x) as H; cbn zeta in H;
          destruct H as (_ & _ & _ & _ & _ & _ & _ & ? & ?);
          generalize dependent (endDirective x); intros
      end;
    (split;
     [ try done; try (by apply prefix_app_r);
       try (etrans; [eassumption|]; by apply prefix_app_r)
     | rewrite ?length_app, ?length_take; unfold MAX_ERRORS; cbn [length]; lia ]).
Qed.

Lemma endOfInput_frame st :
  errors st `prefix_of` errors (endOfInput st)
  /\ length (errors (endOfInput st)) <= length (errors st) + 1
  /\ fileRules (endOfInput st) = fileRules st
  /\ parsedSchema (endOfInput st) = parsedSchema st
  /\ validations (endOfInput st) = validations st
  /\ records (endOfInput st) = records st.
Proof.
  unfold endOfInput. cbn [JS.truthyObject negb].
  repeat case_match; cbn; repeat split; try done; try lia;
    try (rewrite length_app; cbn; lia); by apply prefix_app_r.
Qed.

Lemma loop_errors fuel : forall st,
  match loop fuel st with
  | Some (Normal (inl st')) => errors st `prefix_of` errors st'
  | Some (Normal (inr r)) => errors st `prefix_of` r_errors r
  | _ => True
  end.
Proof.
  induction fuel as [|fuel IH]; intros st; [done|].
  cbn [loop]. destruct (lines st !! position st) as [l|]; [|done].
  pose proof (iteration_errors st l) as Hit.
  destruct (iteration st l) as [st1|r|m]; [|by destruct Hit|done].
  destruct Hit as [Hpre _]. specialize (IH st1).
  destruct (loop fuel st1) as [[[st'|r]|m]|]; try done; by etrans.
Qed.

(** X4.  [parseLines] never drops or rewrites an error: the errors the
    instance held at the call are a prefix of the errors it returns, in focus
    mode and without. *)
Theorem parse_keeps_errors st fuel r :
  parseLines fuel st = Some (Normal r) -> errors st `prefix_of` r_errors r.
Proof.
  unfold parseLines. intros H. pose proof (loop_errors fuel st) as Hl.
  destruct (loop fuel st) as [[[st'|r']|m]|]; simplify_eq; [|done].
  etrans; [exact Hl|]. apply endOfInput_frame.
Qed.

Lemma loop_error_bound `{!WellBehaved parsers} fuel : forall st,
  match loop fuel st with
  | Some (Normal (inl st')) =>
      length (errors st') <= length (errors st) + 52 * (length (lines st) - position st)
  | Some (Normal (inr r)) =>
      length (r_errors r) <= length (errors st) + 52 * (length (lines st) - position st)
  | _ => True
  end.
Proof.
  induction fuel as [|fuel IH]; intros st; [done|].
  cbn [loop]. destruct (lines st !! position st) as [l|] eqn:Hl; [|lia].
  apply lookup_lt_Some in Hl.
  pose proof (iteration_errors st l) as Hit. pose proof (iteration_progress st l) as Hp.
  destruct (iteration st l) as [st1|r|m]; [|destruct Hit; lia|done].
  destruct Hit as [_ Hlen], Hp as [Hlines Hpos]. specialize (IH st1).
  destruct (loop fuel st1) as [[[st'|r]|m]|]; try done; rewrite Hlines in IH; lia.
Qed.

(** X6.  With sub-parsers that keep the line buffer and do not move the
    cursor backwards, a parse adds at most 52 errors per remaining line (two
    ordering errors and 50 of the sub-parser) and one at the end of input. *)
Theorem parse_error_bound `{!WellBehaved parsers} st fuel r :
  parseLines fuel st = Some (Normal r) ->
  length (r_errors r) <= length (errors st) + 52 * (length (lines st) - position st) + 1.
Proof.
  unfold parseLines. intros H. pose proof (loop_error_bound fuel st) as Hl.
  destruct (loop fuel st) as [[[st'|r']|m]|]; simplify_eq; [|lia].
  destruct (endOfInput_frame st') as (_ & Hlen & _). cbn [r_errors fullResult]. lia.
Qed.

Lemma loop_unfocused_no_throw fuel : forall st m,
  JS.truthy (section st) = false -> loop fuel st <> Some (Throw m).
Proof.
  induction fuel as [|fuel IH]; intros st m Hfocus; [done|].
  cbn [loop]. destruct (lines st !! position st) as [l|]; [|done].
  destruct (iteration_unfocused st l Hfocus) as (st1 & -> & Hsame).
  apply IH. by rewrite Hsame.
Qed.

(** X5.  Without a focus [parseLines] never throws and never returns
    early: with sub-parsers that keep the line buffer and do not move the
    cursor backwards, it reaches the end of the input within one iteration
    per remaining line and returns the result of the checks made there. *)
Theorem unfocused_parse_returns `{!WellBehaved parsers} st :
  JS.truthy (section st) = false ->
  exists st',
    loop (S (length (lines st) - position st)) st = Some (Normal (inl st'))
    /\ parseLines (S (length (lines st) - position st)) st
       = Some (Normal (fullResult (endOfInput st'))).
Proof.
  intros Hfocus.
  destruct (loop_terminates (S (length (lines st) - position st)) st) as [out Hout]; [lia|].
  destruct (loop_unfocused (S (length (lines st) - position st)) st Hfocus) as [Hret _].
  pose proof (loop_unfocused_no_throw (S (length (lines st) - position st)) st) as Hthrow.
  unfold parseLines. rewrite Hout in *.
  destruct out as [[st'|r]|m]; [eauto | by destruct (Hret r) | by destruct (Hthrow m Hfocus)].
Qed.

(** With a focus, an iteration keeps the focus and leaves [Strict] unset. *)
Lemma iteration_focused st l :
  JS.truthy (section st) = true ->
  Strict (fileRules st) = false ->
  match iteration st l with
  | Continue st' => section st' = section st /\ Strict (fileRules st') = false
  | Return r => Strict (r_fileRules r) = false
  | Raise _ => True
  end.
Proof.
  intros Hfocus Hstrict.
  unfold iteration, strictDirective, sectionDirective, endDirective. rewrite Hfocus.
  cbn [negb]. repeat case_match; simplify_eq; done.
Qed.

Lemma loop_focused fuel : forall st,
  JS.truthy (section st) = true ->
  Strict (fileRules st) = false ->
  match loop fuel st with
  | Some (Normal (inl st')) => section st' = section st /\ Strict (fileRules st') = false
  | Some (Normal (inr r)) => Strict (r_fileRules r) = false
  | _ => True
  end.
Proof.
  induction fuel as [|fuel IH]; intros st Hfocus Hstrict; [done|].
  cbn [loop]. destruct (lines st !! position st) as [l|]; [|done].
  pose proof (iteration_focused st l Hfocus Hstrict) as Hit.
  destruct (iteration st l) as [st1|r|m]; [|done..].
  destruct Hit as [Hsec Hs]. rewrite <- Hsec in Hfocus. specialize (IH st1 Hfocus Hs).
  destruct (loop fuel st1) as [[[st'|r]|m]|]; try done. by rewrite <- Hsec.
Qed.

(** X7.  With a focus [Strict] is never set: every result returned from
    an instance whose [Strict] is unset has [Strict] unset, and a [*STRICT=]
    line whose value is [TRUE] makes [parseLines] throw. *)
Theorem focus_never_strict st fuel :
  JS.truthy (section st) = true ->
  Strict (fileRules st) = false ->
  (forall r, parseLines fuel st = Some (Normal r) -> Strict (r_fileRules r) = false)
  /\ (forall l, lines st !! position st = Some l ->
        JS.startsWith "*STRICT=" l = true ->
        strictValue l = Some "TRUE" ->
        parseLines (S fuel) st = Some (Throw "Strict-Mode is enabled, please turn it off.")).
Proof.
  intros Hfocus Hstrict. split.
  - intros r H. unfold parseLines in H. pose proof (loop_focused fuel st Hfocus Hstrict) as Hl.
    destruct (loop fuel st) as [[[st'|r']|m]|]; simplify_eq; [|done].
    destruct Hl as [_ Hs]. cbn [r_fileRules fullResult].
    by destruct (endOfInput_frame st') as (_ & _ & -> & _).
  - intros l Hl Hs Hv. unfold parseLines. rewrite (loop_step _ _ _ Hl).
    unfold iteration, strictDirective. by rewrite Hs, Hv, Hfocus.
Qed.

(** A focus that is neither [schema] nor [records]: nothing is parsed. *)
Lemma iteration_unsupported st l :
  JS.truthy (section st) = true ->
  section st <> Some "schema" ->
  section st <> Some "records" ->
  match iteration st l with
  | Continue st' =>
      section st' = section st /\ parsedSchema st' = parsedSchema st
      /\ validations st' = validations st /\ records st' = records st
  | Return _ => False
  | Raise _ => True
  end.
Proof.
  intros Hfocus H1 H2.
  unfold iteration, strictDirective, sectionDirective, endDirective. rewrite Hfocus.
  cbn [negb]. repeat case_match; simplify_eq; done.
Qed.

Lemma loop_unsupported fuel : forall st,
  JS.truthy (section st) = true ->
  section st <> Some "schema" ->
  section st <> Some "records" ->
  match loop fuel st with
  | Some (Normal (inl st')) =>
      section st' = section st /\ parsedSchema st' = parsedSchema st
      /\ validations st' = validations st /\ records st' = records st
  | Some (Normal (inr _)) => False
  | _ => True
  end.
Proof.
  induction fuel as [|fuel IH]; intros st Hfocus H1 H2; [done|].
  cbn [loop]. destruct (lines st !! position st) as [l|]; [|done].
  pose proof (iteration_unsupported st l Hfocus H1 H2) as Hit.
  destruct (iteration st l) as [st1|r|m]; [|done..].
  destruct Hit as (Hsec & Hsch & Hval & Hrec).
  rewrite <- Hsec in Hfocus, H1, H2. specialize (IH st1 Hfocus H1 H2).
  destruct (loop fuel st1) as [[[st'|r]|m]|]; try done.
  destruct IH as (? & ? & ? & ?). repeat split; congruence.
Qed.

(** X8.  A focus other than [schema] and [records] (such as the
    [validations] of the constructor's documentation) parses nothing: a
    result that is returned carries the schema, validations and records the
    instance had at the call, and a line that is no directive makes
    [parseLines] throw. *)
Theorem unsupported_focus_parses_nothing st fuel :
  JS.truthy (section st) = true ->
  section st <> Some "schema" ->
  section st <> Some "records" ->
  (forall r, parseLines fuel st = Some (Normal r) ->
     r_schema r = parsedSchema st /\ r_validations r = validations st
     /\ r_records r = records st)
  /\ (forall l, lines st !! position st = Some l ->
        JS.startsWith "*STRICT=" l = false ->
        l ∉ ["@schema"; "@validations"; "@records"; "@end"] ->
        parseLines (S fuel) st = Some (Throw "Invalid section parsing!")).
Proof.
  intros Hfocus H1 H2. split.
  - intros r H. unfold parseLines in H.
    pose proof (loop_unsupported fuel st Hfocus H1 H2) as Hl.
    destruct (loop fuel st) as [[[st'|r']|m]|]; simplify_eq; try done.
    destruct Hl as (_ & Hsch & Hval & Hrec).
    destruct (endOfInput_frame st') as (_ & _ & _ & E1 & E2 & E3).
    cbn [r_schema r_validations r_records fullResult]. repeat split; congruence.
  - intros l Hl Hs Hd. unfold parseLines. rewrite (loop_step _ _ _ Hl).
    unfold iteration, sectionDirective. rewrite Hs.
    assert (l <> "@schema" /\ l <> "@validations" /\ l <> "@records" /\ l <> "@end")
      as (N1 & N2 & N3 & N4) by (repeat split; intros ->; apply Hd; set_solver).
    apply String.eqb_neq in N1, N2, N3, N4. rewrite N1, N2, N3, N4, Hfocus.
    rewrite !bool_decide_eq_false_2 by done. reflexivity.
Qed.

(** With the focus on [records], every line that is neither a [*STRICT=]
    directive nor [@records] is passed over. *)
Lemma focus_records_skip st l :
  section st = Some "records" ->
  JS.startsWith "*STRICT=" l = false ->
  l <> "@records" ->
  iteration st l = Continue (advance st).
Proof.
  intros Hsec Hs Hl. unfold iteration, sectionDirective, endDirective. rewrite Hs, Hsec.
  apply String.eqb_neq in Hl. rewrite Hl. cbn. repeat case_match; by simplify_eq.
Qed.

Lemma focus_schema_skip st l :
  section st = Some "schema" ->
  JS.startsWith "*STRICT=" l = false ->
  l <> "@schema" -> l <> "@validations" ->
  iteration st l = Continue (advance st).
Proof.
  intros Hsec Hs Hl Hl'. unfold iteration, sectionDirective, endDirective. rewrite Hs, Hsec.
  apply String.eqb_neq in Hl, Hl'. rewrite Hl, Hl'. cbn. repeat case_match; by simplify_eq.
Qed.

Lemma drop_cons_lookup {A} (ls : list A) p x xs :
  drop p ls = x :: xs -> ls !! p = Some x /\ drop (S p) ls = xs.
Proof.
  intros H. split.
  - rewrite <- (Nat.add_0_r p), <- lookup_drop. by rewrite H.
  - rewrite <- Nat.add_1_r, <- drop_drop. by rewrite H.
Qed.

(** X9.  With the focus on [records], [parseLines] passes over every
    line before the first [@records] (as long as none is a [*STRICT=]
    directive), hands the record sub-parser the cursor just after that line
    and returns its records alone. *)
Theorem focus_records_finds_section pre : forall st rest fuel,
  section st = Some "records" ->
  drop (position st) (lines st) = pre ++ "@records" :: rest ->
  Forall (fun l => JS.startsWith "*STRICT=" l = false /\ l <> "@records") pre ->
  parseLines (S (length pre + fuel)) st
  = Some (Normal (recordsOnly
            (parseRecords (with_position (position st + length pre + 1) st)))).
Proof.
  induction pre as [|l pre IH]; intros st rest fuel Hsec Hdrop Hpre.
  - apply drop_cons_lookup in Hdrop as [Hl _].
    unfold parseLines. rewrite (loop_step _ _ _ Hl).
    destruct (focus_records st Hsec) as (-> & _).
    cbn [length]. by rewrite Nat.add_0_r.
  - inversion Hpre as [|? ? [Hs Hne] Hpre']; subst.
    cbn [app] in Hdrop. apply drop_cons_lookup in Hdrop as [Hl Hdrop].
    unfold parseLines. cbn [length Nat.add]. rewrite (loop_step _ _ _ Hl).
    rewrite (focus_records_skip st l Hsec Hs Hne).
    specialize (IH (advance st) rest fuel Hsec).
    unfold parseLines in IH. rewrite IH;
      [|cbn [position lines advance with_position]; by rewrite Nat.add_1_r|done].
    cbn [position advance with_position].
    by replace (position st + 1 + length pre + 1) with (position st + S (length pre) + 1) by lia.
Qed.

(** X10.  With the focus on [schema], [parseLines] passes over every
    line before the first [@schema] (as long as none is a [*STRICT=]
    directive or [@validations]), hands the schema sub-parser the cursor just
    after that line and returns its schema alone. *)
Theorem focus_schema_finds_section pre : forall st rest fuel,
  section st = Some "schema" ->
  drop (position st) (lines st) = pre ++ "@schema" :: rest ->
  Forall (fun l => JS.startsWith "*STRICT=" l = false /\ l <> "@schema" /\ l <> "@validations")
    pre ->
  parseLines (S (length pre + fuel)) st
  = Some (Normal (schemaOnly
            (parseSchema (with_position (position st + length pre + 1) st)))).
Proof.
  induction pre as [|l pre IH]; intros st rest fuel Hsec Hdrop Hpre.
  - apply drop_cons_lookup in Hdrop as [Hl _].
    unfold parseLines. rewrite (loop_step _ _ _ Hl).
    destruct (focus_schema st Hsec) as (-> & _).
    cbn [length]. by rewrite Nat.add_0_r.
  - inversion Hpre as [|? ? (Hs & Hne & Hne') Hpre']; subst.
    cbn [app] in Hdrop. apply drop_cons_lookup in Hdrop as [Hl Hdrop].
    unfold parseLines. cbn [length Nat.add]. rewrite (loop_step _ _ _ Hl).
    rewrite (focus_schema_skip st l Hsec Hs Hne Hne').
    specialize (IH (advance st) rest fuel Hsec).
    unfold parseLines in IH. rewrite IH;
      [|cbn [position lines advance with_position]; by rewrite Nat.add_1_r|done].
    cbn [position advance with_position].
    by replace (position st + 1 + length pre + 1) with (position st + S (length pre) + 1) by lia.
Qed.

Lemma checkSectionOrder_push sec st :
  sec ∈ sectionMarkers -> sectionOrder (checkSectionOrder sec st) = sectionOrder st ++ [sec].
Proof.
  intros Hsec. apply list_elem_of_In in Hsec. cbn in Hsec.
  destruct Hsec as [<-|[<-|[<-|[]]]].
  - change (checkSectionOrder "@schema" st) with (checkSchemaOrder st).
    unfold checkSchemaOrder. by repeat case_match.
  - change (checkSectionOrder "@validations" st) with (checkValidationsOrder st).
    unfold checkValidationsOrder. by repeat case_match.
  - change (checkSectionOrder "@records" st) with (checkRecordsOrder st).
    unfold checkRecordsOrder. by repeat case_match.
Qed.

(** A top-level [@end] with a known marker on top of the stack pops it
    and reports nothing. *)
Lemma endDirective_pop st so sec :
  JS.truthy (section st) = false ->
  sectionOrder st = so ++ [sec] ->
  sec ∈ sectionMarkers ->
  endDirective st = with_sectionOrder so st.
Proof.
  intros Hfocus Hso Hsec. unfold endDirective. rewrite Hfocus, Hso, last_snoc, removelast_last.
  cbn [negb]. apply list_elem_of_In in Hsec. cbn in Hsec.
  by destruct Hsec as [<-|[<-|[<-|[]]]].
Qed.

(** X11.  Without a focus, a top-level [@end] undoes the push of the
    section check made just before: the order stack is the one from before
    the section was opened, and the [@end] reports nothing. *)
Theorem end_pops_opened_section st sec :
  JS.truthy (section st) = false ->
  sec ∈ sectionMarkers ->
  sectionOrder (endDirective (checkSectionOrder sec st)) = sectionOrder st
  /\ errors (endDirective (checkSectionOrder sec st)) = errors (checkSectionOrder sec st).
Proof.
  intros Hfocus Hsec.
  rewrite (endDirective_pop (checkSectionOrder sec st) (sectionOrder st) sec);
    [done | by rewrite section_checkSectionOrder | by apply checkSectionOrder_push | done].
Qed.

Lemma Forall_removelast {A} (P : A -> Prop) (l : list A) :
  Forall P l -> Forall P (removelast l).
Proof.
  induction 1 as [|x l Hx Hl IH]; [done|]. cbn [removelast].
  destruct l; [done|]. by constructor.
Qed.

(** The order stack only ever holds section markers. *)
Lemma iteration_markers st l :
  Forall (fun m => m ∈ sectionMarkers) (sectionOrder st) ->
  match iteration st l with
  | Continue st' => Forall (fun m => m ∈ sectionMarkers) (sectionOrder st')
  | _ => True
  end.
Proof.
  intros Hinv.
  assert (Hpush : forall sec, sec ∈ sectionMarkers ->
            Forall (fun m => m ∈ sectionMarkers) (sectionOrder (checkSectionOrder sec st))).
  { intros sec Hsec. rewrite checkSectionOrder_push by done.
    apply Forall_app. split; [done|]. by constructor. }
  assert (Hpop : Forall (fun m => m ∈ sectionMarkers) (sectionOrder (endDirective st))).
  { unfold endDirective. repeat case_match; cbn [sectionOrder with_sectionOrder pushErrorHere
      with_errors]; auto using Forall_removelast. }
  unfold iteration, strictDirective, sectionDirective.
  repeat case_match; simplify_eq; try done;
    cbn [sectionOrder advance parseSchema parseValidation parseRecords pushErrorHere
         with_position with_fileRules with_errors]; try done;
    try apply Hpush; unfold sectionMarkers; set_solver.
Qed.

Lemma steps_markers n : forall st st',
  Forall (fun m => m ∈ sectionMarkers) (sectionOrder st) ->
  steps n st = Some st' ->
  Forall (fun m => m ∈ sectionMarkers) (sectionOrder st').
Proof.
  induction n as [|n IH]; intros st st' Hinv H; cbn [steps] in H; [by simplify_eq|].
  destruct (lines st !! position st) as [l|]; [|done].
  pose proof (iteration_markers st l Hinv) as Hit.
  destruct (iteration st l); [|done..]. by eapply IH.
Qed.

(** X12.  The order stack only ever holds the three section markers, so
    a top-level [@end] reports at most the error on an [@end] without an open
    section, and that only on an empty stack: the error "Unexpected '@end' for
    section" is never produced. *)
Theorem end_error_is_unexpected_end n st st' :
  Forall (fun m => m ∈ sectionMarkers) (sectionOrder st) ->
  steps n st = Some st' ->
  Forall (fun m => m ∈ sectionMarkers) (sectionOrder st')
  /\ (errors (endDirective st') = errors st'
      \/ (sectionOrder st' = []
          /\ errors (endDirective st')
             = errors st' ++ [{| line := Some (position st' + 1);
                                 message := "Unexpected '@end' without an open section." |}])).
Proof.
  intros Hinv Hsteps. pose proof (steps_markers n st st' Hinv Hsteps) as Hinv'.
  split; [done|]. unfold endDirective.
  destruct (JS.truthy (section st')); cbn [negb]; [by left|].
  destruct (sectionOrder st') as [|m so] eqn:Hso using rev_ind; [by right|].
  left. rewrite last_snoc.
  apply Forall_app in Hinv' as [_ Hm]. inversion Hm as [|? ? Hin _]; subst.
  apply list_elem_of_In in Hin. cbn in Hin.
  by destruct Hin as [<-|[<-|[<-|[]]]].
Qed.

(** X13.  From an empty order stack the section checks made in the order
    schema, validations, records report nothing, and neither do they when
    validations is left out. *)
Theorem sections_in_order_report_nothing st :
  sectionOrder st = [] ->
  errors (checkRecordsOrder (checkValidationsOrder (checkSchemaOrder st))) = errors st
  /\ sectionOrder (checkRecordsOrder (checkValidationsOrder (checkSchemaOrder st)))
     = ["@schema"; "@validations"; "@records"]
  /\ errors (checkRecordsOrder (checkSchemaOrder st)) = errors st
  /\ sectionOrder (checkRecordsOrder (checkSchemaOrder st)) = ["@schema"; "@records"].
Proof.
  intros Hso. destruct st as [? ? ? ? ? ? ? ? ? so ?]. cbn in Hso. subst so.
  repeat split; reflexivity.
Qed.
End MoreOrchestratorFacts.

(** ** More on [redoc] and on the installed version *)

Module RedocMore.
Import Redoc RedocAux RedocFacts.





Lemma join_two_nonempty a b ls : JS.join JS.newline (a :: b :: ls) <> EmptyString.
Proof. rewrite join_cons. by destruct a. Qed.

Lemma renumber_cons b n l rest :
  renumber b n (l :: rest)
  = if String.eqb (JS.trim l) "@records" then l :: renumber true n rest
    else if String.eqb (JS.trim l) "@end" && b then l :: renumber false n rest
    else if b && JS.startsWith "#" (JS.trim l)
         then replaceMarker n l :: renumber b (S n) rest
    else l :: renumber b n rest.
Proof. reflexivity. Qed.

(** Inside a record section: the marker lines take the next ordinals, the
    other lines pass, and the section stays open. *)
Lemma renumber_section xs : forall n rest,
  Forall wellFormedLine xs ->
  exists n', renumber true n (map lineText xs ++ rest) = numbered n xs ++ renumber true n' rest.
Proof.
  induction xs as [|x xs IH]; intros n rest H; [by exists n|].
  inversion H as [|? ? Hx Hxs]; subst. destruct x as [ordinal tl|text].
  - destruct (IH (S n) rest Hxs) as [n' E]. exists n'.
    cbn [map app numbered]. rewrite renumber_cons.
    assert (Hs : JS.startsWith "#" (JS.trim (lineText (MarkerLine ordinal tl))) = true).
    { cbn [lineText]. destruct (trim_head "#" (ordinal +:+ tl)) as [t Ht]; [done|].
      change ("#" +:+ ordinal +:+ tl) with (String "#" (ordinal +:+ tl)). by rewrite Ht. }
    destruct (marker_not_directive _ Hs) as [-> ->]. rewrite Hs. cbn [andb].
    rewrite E. f_equal. exact (replaceMarker_markerLine n (ordinal, tl) Hx).
  - destruct Hx as [Hs He]. destruct (IH n rest Hxs) as [n' E]. exists n'.
    cbn [map app numbered lineText]. rewrite renumber_cons, Hs, E.
    apply String.eqb_neq in He. rewrite He. cbn [andb].
    by destruct (String.eqb (JS.trim text) "@records").
Qed.

(** A document with one record section. *)
Lemma updatedContent_section pre opening xs closing post :
  Forall (fun l => JS.trim l <> "@records") pre ->
  JS.trim opening = "@records" ->
  Forall wellFormedLine xs ->
  JS.trim closing = "@end" ->
  Forall (fun l => JS.trim l <> "@records") post ->
  Forall (fun l => freeOf JS.LF l = true)
    (pre ++ [opening] ++ map lineText xs ++ [closing] ++ post) ->
  updatedContent (JS.join JS.newline (pre ++ [opening] ++ map lineText xs ++ [closing] ++ post))
  = JS.join JS.newline (pre ++ [opening] ++ numbered 0 xs ++ [closing] ++ post).
Proof.
  intros Hpre Hopen Hxs Hclose Hpost Hfree.
  rewrite updatedContent_renumber, split_join; [|by destruct pre|done].
  rewrite renumber_outside by done.
  change ([opening] ++ map lineText xs ++ [closing] ++ post)
    with (opening :: (map lineText xs ++ closing :: post)).
  rewrite renumber_cons, Hopen. cbn [String.eqb Ascii.eqb Bool.eqb].
  destruct (renumber_section xs 0 (closing :: post) Hxs) as [n' ->].
  rewrite renumber_cons, Hclose. cbn [String.eqb Ascii.eqb Bool.eqb andb].
  by rewrite (renumber_outside_all post).
Qed.

End RedocMore.

(** X14.  An ASCII text none of whose lines is [@records] (once trimmed)
    is returned by [redoc] as it is. *)
Theorem redoc_without_records_section (s file : string) :
  asciiText s = true ->
  Forall (fun l => JS.trim l <> "@records") (JS.split JS.LF s) ->
  Redoc.updatedContent s = s
  /\ (s <> EmptyString -> Redoc.redoc (Some s) file = (Some s, file)).
Proof.
  intros _ H.
  assert (E : Redoc.updatedContent s = s)
    by (by rewrite RedocFacts.updatedContent_renumber, RedocFacts.renumber_outside_all, RedocFacts.join_split).
  split; [done|]. intros Hne. unfold Redoc.redoc. rewrite E. by destruct s.
Qed.


(** X17.  On an ASCII document with one record section in which every
    line that starts with [#] once trimmed is a marker at the first column,
    [#] and digits, a call of [redoc] with the document as content returns it
    with the markers numbered [#0], [#1], ... in order and every other line
    as it was, the lines between the markers included, and leaves the file
    alone. *)
Theorem redoc_renumbers_first_column pre opening xs closing post file :
  asciiText (JS.join JS.newline (pre ++ [opening] ++ map lineText xs ++ [closing] ++ post)) = true ->
  Forall (fun l => JS.trim l <> "@records") pre ->
  JS.trim opening = "@records" ->
  Forall wellFormedLine xs ->
  JS.trim closing = "@end" ->
  Forall (fun l => JS.trim l <> "@records") post ->
  Forall (fun l => RedocAux.freeOf JS.LF l = true)
    (pre ++ [opening] ++ map lineText xs ++ [closing] ++ post) ->
  Redoc.redoc (Some (JS.join JS.newline (pre ++ [opening] ++ map lineText xs ++ [closing] ++ post)))
    file
  = (Some (JS.join JS.newline (pre ++ [opening] ++ numbered 0 xs ++ [closing] ++ post)), file).
Proof.
  intros _ Hpre Hopen Hxs Hclose Hpost Hfree. unfold Redoc.redoc.
  rewrite (RedocMore.updatedContent_section pre opening xs closing post
             Hpre Hopen Hxs Hclose Hpost Hfree).
  assert (Hne : JS.join JS.newline (pre ++ [opening] ++ map lineText xs ++ [closing] ++ post)
                <> EmptyString).
  { destruct pre as [|p pre]; cbn [app].
    - destruct xs; apply RedocMore.join_two_nonempty.
    - destruct pre; apply RedocMore.join_two_nonempty. }
  cbn [JS.truthy].
  by destruct (JS.join JS.newline (pre ++ [opening] ++ map lineText xs ++ [closing] ++ post)).
Qed.


Lemma orElse_nonempty a b : b <> EmptyString -> Version.orElse a b <> EmptyString.
Proof. by destruct a. Qed.

(** X18.  [getLibraryVersion] never returns the empty string.  It
    answers [Not installed] when the name is not one that objects inherit and
    both tables have no entry or a falsy one for it; a non-empty string in
    [dependencies] wins over [devDependencies] and is returned without one
    leading [^] or [~] ([Not installed] if nothing is left); a name that
    objects inherit, such as [toString], throws a [TypeError] unless
    [dependencies] has an entry of its own for it; and with any other name and
    tables that hold strings only the call returns. *)
Theorem getLibraryVersion_answers (pkg : Version.PackageJson) (library : string) :
  Version.getLibraryVersion pkg library <> Version.Returned EmptyString
  /\ (library ∉ Version.objectPrototypeNames ->
      (forall v, default ∅ (Version.dependencies pkg) !! library = Some v ->
                 Version.truthy v = false) ->
      (forall v, default ∅ (Version.devDependencies pkg) !! library = Some v ->
                 Version.truthy v = false) ->
      Version.getLibraryVersion pkg library = Version.Returned "Not installed")
  /\ (forall v, default ∅ (Version.dependencies pkg) !! library = Some (Version.Str v) ->
      v <> EmptyString ->
      Version.getLibraryVersion pkg library
      = Version.Returned (Version.orElse (Version.stripRange v) "Not installed"))
  /\ (library ∈ Version.objectPrototypeNames ->
      default ∅ (Version.dependencies pkg) !! library = None ->
      Version.getLibraryVersion pkg library = Version.ThrewTypeError)
  /\ (library ∉ Version.objectPrototypeNames ->
      (forall v, default ∅ (Version.dependencies pkg) !! library = Some v ->
                 exists s, v = Version.Str s) ->
      (forall v, default ∅ (Version.devDependencies pkg) !! library = Some v ->
                 exists s, v = Version.Str s) ->
      exists s, Version.getLibraryVersion pkg library = Version.Returned s /\ s <> EmptyString).
Proof.
  unfold Version.getLibraryVersion, Version.get.
  set (deps := default ∅ (Version.dependencies pkg)).
  set (dev := default ∅ (Version.devDependencies pkg)).
  assert (Hni : Version.orElse EmptyString "Not installed" <> EmptyString) by done.
  split; [|split; [|split; [|split]]].
  - destruct (Version.or _ _) as [s|b]; [|discriminate].
    intros [= E]. revert E. by apply orElse_nonempty.
  - intros Hn Hd Hv. rewrite (bool_decide_eq_false_2 _ Hn).
    unfold Version.or.
    destruct (deps !! library) as [v|] eqn:E1; destruct (dev !! library) as [w|] eqn:E2;
      try (pose proof (Hd _ eq_refl) as Hv1; rewrite Hv1); cbn [Version.truthy];
      try (pose proof (Hv _ eq_refl) as Hw1; rewrite Hw1); reflexivity.
  - intros v Hv Hne. rewrite Hv. unfold Version.or. by destruct v.
  - intros Hin Hnone. rewrite Hnone, (bool_decide_eq_true_2 _ Hin). reflexivity.
  - intros Hn Hd Hv. rewrite (bool_decide_eq_false_2 _ Hn).
    destruct (deps !! library) as [v|] eqn:E1; destruct (dev !! library) as [w|] eqn:E2;
      try (destruct (Hd _ eq_refl) as [s ->]); try (destruct (Hv _ eq_refl) as [s' ->]);
      unfold Version.or, Version.truthy; repeat case_match; simplify_eq;
      eexists; (split; [reflexivity|]); by apply orElse_nonempty.
Qed.

(** ** The keyword table against the type vocabulary *)

(** X19.  The two tables of the constructor agree: every TypeTag that
    [validationKeywords] gives for a keyword is one of [allowedTypes], and
    the table has 33 keywords, no two alike. *)
Theorem matrix_tags_allowed :
  (forall k tags, validationKeywords !! k = Some tags -> Forall (fun t => t ∈ allowedTypes) tags)
  /\ NoDup (validationKeywordsEntries.*1)
  /\ size validationKeywords = 33.
Proof.
  assert (Hall : Forall (fun e => Forall (fun t => t ∈ allowedTypes) e.2) validationKeywordsEntries)
    by compute_done.
  assert (Hnd : NoDup (validationKeywordsEntries.*1)) by compute_done.
  split; [|split; [done|]].
  - intros k tags H. apply elem_of_list_to_map_2 in H.
    rewrite Forall_forall in Hall. exact (Hall _ H).
  - unfold validationKeywords. rewrite map_size_list_to_map by done. reflexivity.
Qed.

(** ** The further properties on concrete documents *)

(** Three blanks and a line feed as content. *)
Lemma blank_content_parses_empty_witness :
  parseInline 1 {| cfg_filePath := None; cfg_section := None;
                   cfg_fileContent := Some (JS.join JS.newline ["   "; " "]) |}
  = Some (Normal {| r_fileRules := {| Strict := false |};
                    r_schema := (∅ : gmap string string);
                    r_validations := (∅ : gmap string string);
                    r_records := ([] : list string);
                    r_errors := [{| line := None;
                                    message := "Missing required section: '@records'" |}] |}).
Proof.
  apply (blank_content_parses_empty
           {| cfg_filePath := None; cfg_section := None;
              cfg_fileContent := Some (JS.join JS.newline ["   "; " "]) |}
           (JS.join JS.newline ["   "; " "]) 0);
    [reflexivity | discriminate | reflexivity | reflexivity].
Defined.

(** An instance that already holds an error. *)
Lemma parse_keeps_errors_witness :
  exists r,
    parseLines 3 (with_errors [{| line := Some 9; message := "earlier" |}]
                    (Scan.loaded None ["@end"; "@schema"; "@end"]))
    = Some (Normal r)
    /\ [{| line := Some 9; message := "earlier" |}] `prefix_of` r_errors r.
Proof.
  eexists. split; [vm_compute; reflexivity|].
  apply (parse_keeps_errors
           (with_errors [{| line := Some 9; message := "earlier" |}]
              (Scan.loaded None ["@end"; "@schema"; "@end"])) 3).
  vm_compute. reflexivity.
Defined.

(** A whole document, parsed without a focus. *)
Lemma unfocused_parse_returns_witness :
  exists st',
    loop (S (length (lines (Scan.loaded None ["@schema"; "a: Number"; "@end"; "@end"; "@records"; "#0 a"; "@end"]))
             - position (Scan.loaded None ["@schema"; "a: Number"; "@end"; "@end"; "@records"; "#0 a"; "@end"])))
      (Scan.loaded None ["@schema"; "a: Number"; "@end"; "@end"; "@records"; "#0 a"; "@end"])
    = Some (Normal (inl st'))
    /\ parseLines
         (S (length (lines (Scan.loaded None ["@schema"; "a: Number"; "@end"; "@end"; "@records"; "#0 a"; "@end"]))
             - position (Scan.loaded None ["@schema"; "a: Number"; "@end"; "@end"; "@records"; "#0 a"; "@end"])))
         (Scan.loaded None ["@schema"; "a: Number"; "@end"; "@end"; "@records"; "#0 a"; "@end"])
       = Some (Normal (fullResult (endOfInput st'))).
Proof.
  apply (unfocused_parse_returns
           (Scan.loaded None ["@schema"; "a: Number"; "@end"; "@end"; "@records"; "#0 a"; "@end"])).
  vm_compute. reflexivity.
Defined.

(** Three lines, two of them unknown commands. *)
Lemma parse_error_bound_witness :
  exists r,
    parseLines 4 (Scan.loaded None ["x"; "y"; "@end"]) = Some (Normal r)
    /\ length (r_errors r) <= 0 + 52 * (3 - 0) + 1.
Proof.
  eexists. split; [vm_compute; reflexivity|].
  apply (parse_error_bound (Scan.loaded None ["x"; "y"; "@end"]) 4).
  vm_compute. reflexivity.
Defined.

(** A focus and [*STRICT=TRUE] on the first line. *)
Lemma focus_never_strict_witness :
  parseLines 1 (Scan.loaded (Some "records") ["*STRICT=TRUE"; "@records"; "@end"])
  = Some (Throw "Strict-Mode is enabled, please turn it off.")
  /\ exists r,
      parseLines 3 (Scan.loaded (Some "records") ["*STRICT=FALSE"; "@records"; "#0 a"; "@end"])
      = Some (Normal r)
      /\ Strict (r_fileRules r) = false.
Proof.
  split.
  - destruct (focus_never_strict
                (Scan.loaded (Some "records") ["*STRICT=TRUE"; "@records"; "@end"]) 0
                ltac:(vm_compute; reflexivity) ltac:(vm_compute; reflexivity)) as [_ H].
    apply (H "*STRICT=TRUE"); vm_compute; reflexivity.
  - eexists. split; [vm_compute; reflexivity|].
    destruct (focus_never_strict
                (Scan.loaded (Some "records") ["*STRICT=FALSE"; "@records"; "#0 a"; "@end"]) 3
                ltac:(vm_compute; reflexivity) ltac:(vm_compute; reflexivity)) as [H _].
    apply H. vm_compute. reflexivity.
Defined.

(** The focus [validations] of the constructor's documentation. *)
Lemma unsupported_focus_parses_nothing_witness :
  parseLines 1 (advance (Scan.loaded (Some "validations")
                           ["@validations"; "age: min(18)"; "@end"]))
  = Some (Throw "Invalid section parsing!")
  /\ exists r,
      parseLines 3 (Scan.loaded (Some "validations") ["@validations"; "@end"]) = Some (Normal r)
      /\ r_schema r = ∅ /\ r_validations r = ∅ /\ r_records r = [].
Proof.
  destruct (unsupported_focus_parses_nothing
              (advance (Scan.loaded (Some "validations")
                          ["@validations"; "age: min(18)"; "@end"])) 0
              ltac:(vm_compute; reflexivity) ltac:(vm_compute; discriminate)
              ltac:(vm_compute; discriminate)) as [_ Hthrow].
  destruct (unsupported_focus_parses_nothing
              (Scan.loaded (Some "validations") ["@validations"; "@end"]) 3
              ltac:(vm_compute; reflexivity) ltac:(vm_compute; discriminate)
              ltac:(vm_compute; discriminate)) as [Hret _].
  split.
  - apply (Hthrow "age: min(18)"); [vm_compute; reflexivity | vm_compute; reflexivity |].
    compute_done.
  - eexists. split; [vm_compute; reflexivity|].
    apply Hret. vm_compute. reflexivity.
Defined.

(** The records of a whole document, with the focus on [records]. *)
Lemma focus_records_finds_section_witness :
  parseLines 4 (Scan.loaded (Some "records")
                  ["@schema"; "a: Number"; "@end"; "@records"; "#0 a"; "@end"])
  = Some (Normal {| r_fileRules := {| Strict := false |}; r_schema := ∅; r_validations := ∅;
                    r_records := ["#0 a"]; r_errors := [] |}).
Proof.
  pose proof (focus_records_finds_section ["@schema"; "a: Number"; "@end"]
                (Scan.loaded (Some "records")
                   ["@schema"; "a: Number"; "@end"; "@records"; "#0 a"; "@end"])
                ["#0 a"; "@end"] 0
                ltac:(vm_compute; reflexivity) ltac:(vm_compute; reflexivity)) as H.
  refine (eq_trans (H _) _); [|vm_compute; reflexivity].
  repeat (constructor; [split; [vm_compute; reflexivity | discriminate]|]). constructor.
Defined.

(** The schema of a whole document, with the focus on [schema]. *)
Lemma focus_schema_finds_section_witness :
  parseLines 2 (Scan.loaded (Some "schema")
                  ["*comment"; "@schema"; "a: Number"; "@end"; "@records"; "#0 a"; "@end"])
  = Some (Normal {| r_fileRules := {| Strict := false |}; r_schema := {[ "a" := "Number" ]};
                    r_validations := ∅; r_records := []; r_errors := [] |}).
Proof.
  pose proof (focus_schema_finds_section ["*comment"]
                (Scan.loaded (Some "schema")
                   ["*comment"; "@schema"; "a: Number"; "@end"; "@records"; "#0 a"; "@end"])
                ["a: Number"; "@end"; "@records"; "#0 a"; "@end"] 0
                ltac:(vm_compute; reflexivity) ltac:(vm_compute; reflexivity)) as H.
  refine (eq_trans (H _) _); [|vm_compute; reflexivity].
  repeat (constructor; [split; [vm_compute; reflexivity | split; discriminate]|]). constructor.
Defined.

(** [@records] opened on a stack that holds [@schema], then closed. *)
Lemma end_pops_opened_section_witness :
  sectionOrder (endDirective (checkSectionOrder "@records"
     (with_sectionOrder ["@schema"] (Scan.loaded None ["@records"; "@end"]))))
  = ["@schema"]
  /\ errors (endDirective (checkSectionOrder "@records"
       (with_sectionOrder ["@schema"] (Scan.loaded None ["@records"; "@end"]))))
     = errors (checkSectionOrder "@records"
         (with_sectionOrder ["@schema"] (Scan.loaded None ["@records"; "@end"]))).
Proof.
  apply (end_pops_opened_section
           (with_sectionOrder ["@schema"] (Scan.loaded None ["@records"; "@end"])) "@records").
  - vm_compute. reflexivity.
  - compute_done.
Defined.

(** After one iteration on a document that opens [@schema]. *)
Lemma end_error_is_unexpected_end_witness :
  exists st',
    steps 1 (Scan.loaded None ["@schema"; "@end"; "@end"; "@end"]) = Some st'
    /\ Forall (fun m => m ∈ sectionMarkers) (sectionOrder st')
    /\ (errors (endDirective st') = errors st'
        \/ (sectionOrder st' = []
            /\ errors (endDirective st')
               = errors st' ++ [{| line := Some (position st' + 1);
                                   message := "Unexpected '@end' without an open section." |}])).
Proof.
  eexists. split; [vm_compute; reflexivity|].
  apply (end_error_is_unexpected_end 1 (Scan.loaded None ["@schema"; "@end"; "@end"; "@end"])).
  - vm_compute. constructor.
  - vm_compute. reflexivity.
Defined.

(** A fresh instance. *)
Lemma sections_in_order_report_nothing_witness :
  errors (checkRecordsOrder (checkValidationsOrder (checkSchemaOrder
            (Scan.loaded None ["@schema"; "@end"]))))
  = []
  /\ sectionOrder (checkRecordsOrder (checkValidationsOrder (checkSchemaOrder
            (Scan.loaded None ["@schema"; "@end"]))))
     = ["@schema"; "@validations"; "@records"].
Proof.
  destruct (sections_in_order_report_nothing (Scan.loaded None ["@schema"; "@end"])
              ltac:(vm_compute; reflexivity)) as (H1 & H2 & _).
  split; [rewrite H1; vm_compute; reflexivity | exact H2].
Defined.

(** A document without records. *)
Lemma redoc_without_records_section_witness :
  Redoc.updatedContent (JS.join JS.newline ["@schema"; "#1 a: Number"; "@end"])
  = JS.join JS.newline ["@schema"; "#1 a: Number"; "@end"].
Proof.
  apply (redoc_without_records_section
           (JS.join JS.newline ["@schema"; "#1 a: Number"; "@end"]) EmptyString).
  - vm_compute. reflexivity.
  - apply (bool_decide_eq_true_1 _). vm_compute. reflexivity.
Defined.

(** Two records of two lines each, in an indented section. *)
Lemma redoc_renumbers_first_column_witness :
  Redoc.redoc (Some (JS.join JS.newline
                 ["@schema"; "#5 x"; "@end"; " @records"; "#7 -> a(1);"; "  b(2);"; "#3 -> a(4);";
                  "  b(5);"; " @end"; "#4"]))
    "file"
  = (Some (JS.join JS.newline
             ["@schema"; "#5 x"; "@end"; " @records"; "#0 -> a(1);"; "  b(2);"; "#1 -> a(4);";
              "  b(5);"; " @end"; "#4"]),
     "file").
Proof.
  apply (redoc_renumbers_first_column ["@schema"; "#5 x"; "@end"] " @records"
           [MarkerLine "7" " -> a(1);"; OtherLine "  b(2);";
            MarkerLine "3" " -> a(4);"; OtherLine "  b(5);"]
           " @end" ["#4"] "file").
  - vm_compute. reflexivity.
  - repeat (constructor; [intros E; vm_compute in E; discriminate E|]). constructor.
  - vm_compute. reflexivity.
  - constructor; [split; [discriminate | split; reflexivity]|].
    constructor; [split; [vm_compute; reflexivity | intros E; vm_compute in E; discriminate E]|].
    constructor; [split; [discriminate | split; reflexivity]|].
    constructor; [split; [vm_compute; reflexivity | intros E; vm_compute in E; discriminate E]|].
    constructor.
  - vm_compute. reflexivity.
  - repeat (constructor; [intros E; vm_compute in E; discriminate E|]). constructor.
  - repeat (constructor; [vm_compute; reflexivity|]). constructor.
Defined.
